(** * Data-quality helpers of [src/utils.py], embedded and verified

    The Python module is a thin layer over [pathlib] and [pandas].  The
    embedding keeps the functions of the module as they are written and
    models the library objects they touch:

    - a Python [str] is a list of Unicode code points;
    - a column label is a Python object: a [str], an [int], or some other
      hashable object known by its [str()] text;
    - a data frame is a list of named, typed columns;
    - the values of a column are compared as the library's hash tables
      compare them: numbers by their value ([1 == 1.0 == True]), texts by
      their characters, missing values all alike;
    - a float is represented by the exact rational the expression denotes
      (the interpreter returns the nearest double);
    - exceptions are values of [exn], and a call returns a [result];
    - data frames live in a store of objects where the code copies or
      assigns to them;
    - the file system is a finite map from paths to nodes. *)

From Stdlib Require Import ZArith QArith Qround Qcanon Lqa Ascii String DecimalString.
From stdpp Require Import base decidable option list sorting numbers gmap.

Local Open Scope Z_scope.
Local Set Warnings "-clear-no-such-hyp".

(** Lexicographic comparison of two sequences: the first difference
    decides, and a proper prefix comes first.  Python compares strings,
    and [pathlib] compares paths, this way. *)
Fixpoint lex_compare {A} (cmp : A -> A -> comparison) (s t : list A) : comparison :=
  match s, t with
  | [], [] => Eq
  | [], _ :: _ => Lt
  | _ :: _, [] => Gt
  | a :: s', b :: t' =>
      match cmp a b with
      | Eq => lex_compare cmp s' t'
      | o => o
      end
  end.

(** ** Python strings *)

Module Str.

(** A code point. *)
Definition char := N.
Definition str := list char.

(** A literal written with ASCII characters only. *)
Fixpoint lit (s : string) : str :=
  match s with
  | EmptyString => []
  | String a s' => N_of_ascii a :: lit s'
  end.

(** U+FEFF, the byte-order mark. *)
Definition BOM : char := 65279%N.

(** [str.isspace] on one code point: the table of
    [_PyUnicode_IsWhitespace], which [str.strip()] uses. *)
Definition isspace (c : char) : bool :=
  ((9 <=? c) && (c <=? 13) || (28 <=? c) && (c <=? 32) || (c =? 133)
   || (c =? 160) || (c =? 5760) || (8192 <=? c) && (c <=? 8202)
   || (c =? 8232) || (c =? 8233) || (c =? 8239) || (c =? 8287)
   || (c =? 12288))%N.

(** [s.lstrip()] *)
Fixpoint lstrip (s : str) : str :=
  match s with
  | [] => []
  | c :: s' => if isspace c then lstrip s' else s
  end.

(** [s.rstrip()] *)
Fixpoint rstrip (s : str) : str :=
  match s with
  | [] => []
  | c :: s' =>
      match rstrip s' with
      | [] => if isspace c then [] else [c]
      | r => c :: r
      end
  end.

(** [s.strip()] *)
Definition strip (s : str) : str := rstrip (lstrip s).

(** [s.replace(old, new)] for a pattern [old] of one code point. *)
Definition replace (old : char) (new : str) (s : str) : str :=
  flat_map (fun c => if (c =? old)%N then new else [c]) s.

(** [s.lower()].  Only the ASCII letters are mapped; no code point outside
    ASCII lower-cases to one of the letters of "unnamed", the only text
    the module compares a lower-cased string with. *)
Definition lower_char (c : char) : char :=
  if ((65 <=? c) && (c <=? 90))%N then (c + 32)%N else c.
Definition lower (s : str) : str := map lower_char s.

(** [s.startswith(p)] *)
Fixpoint startswith (s p : str) : bool :=
  match p, s with
  | [], _ => true
  | _ :: _, [] => false
  | a :: p', b :: s' => (a =? b)%N && startswith s' p'
  end.

(** [c in s] for a code point [c]. *)
Definition contains (c : char) (s : str) : bool :=
  existsb (fun x => (x =? c)%N) s.

(** [str(n)] for an [int]. *)
Definition of_int (n : Z) : str := lit (NilZero.string_of_int (Z.to_int n)).

(** Comparison of two strings, code point by code point. *)
Definition compare (s t : str) : comparison := lex_compare N.compare s t.

End Str.

Import Str.

(** ** Exceptions *)

(** The messages of [FileNotFoundError]: the three the module writes, and
    the system's own.  The exception carries the path the message shows
    (the module shows it resolved; it is kept as written). *)
Inductive message := RawDirNotFound | NoCsvFound | CsvNotFound | NoSuchFile.

Inductive exn :=
| FileNotFoundError (m : message) (p : list str)
| IsADirectoryError
| ParserError
| ValueError
| AttributeError
| ZeroDivisionError.

Inductive result (A : Type) :=
| Ok (a : A)
| Raise (e : exn).
Arguments Ok {A} a.
Arguments Raise {A} e.

Definition rbind {A B} (r : result A) (k : A -> result B) : result B :=
  match r with
  | Ok a => k a
  | Raise e => Raise e
  end.

(** ** Column labels *)

Inductive label :=
| LStr (s : str)                 (* a [str] *)
| LInt (n : Z)                   (* an [int] *)
| LObj (id : nat) (text : str).  (* another hashable object; [text] is its [str()] *)

Global Instance label_eq_dec : EqDecision label.
Proof. solve_decision. Defined.

(** [isinstance(c, str)] *)
Definition is_str (c : label) : bool :=
  match c with LStr _ => true | _ => false end.

(** [str(c)] *)
Definition py_str (c : label) : str :=
  match c with
  | LStr s => s
  | LInt n => of_int n
  | LObj _ text => text
  end.

(** ** Duplicate marking

    [Index.duplicated()] and [DataFrame.duplicated()] with the default
    [keep='first']: an entry is marked when an equal entry stands before
    it. *)

Section Duplicated.
Context {A : Type} `{EqDecision A}.

Fixpoint duplicated_from (seen : list A) (l : list A) : list bool :=
  match l with
  | [] => []
  | x :: l' => bool_decide (x ∈ seen) :: duplicated_from (x :: seen) l'
  end.

Definition duplicated (l : list A) : list bool := duplicated_from [] l.

(** [l[mask]]: the entries of [l] whose mark is set. *)
Fixpoint select (l : list A) (mask : list bool) : list A :=
  match l, mask with
  | x :: l', b :: mask' => if b then x :: select l' mask' else select l' mask'
  | _, _ => []
  end.

(** [mask.sum()] *)
Definition count_true (mask : list bool) : nat :=
  length (filter (fun b => b = true) mask).
End Duplicated.

(** ** Data frames *)

Inductive dtype := int64 | float64 | bool_ | object.

Global Instance dtype_eq_dec : EqDecision dtype.
Proof. solve_decision. Defined.

(** A value stored in a frame.  [NA] is the missing value ([NaN], [None]);
    a float is given by its exact value. *)
Inductive cell :=
| NA
| VInt (n : Z)
| VFloat (q : Qc)
| VBool (b : bool)
| VStr (s : str).

Record Column := { name : label; dtype_of : dtype; values : list cell }.

(** A frame is the list of its columns, in order.  Its rows are read across
    the columns, so the number of rows is the length of the columns (a frame
    that has rows but no column is not represented). *)
Definition DataFrame := list Column.

(** [df.columns.tolist()] *)
Definition columns (df : DataFrame) : list label := map name df.

(** [len(df)] *)
Definition len (df : DataFrame) : nat :=
  match df with
  | [] => O
  | c :: _ => length (values c)
  end.

(** Every column holds one value per row. *)
Definition rectangular (df : DataFrame) : Prop :=
  Forall (fun c => length (values c) = len df) df.

(** [df.empty]: one of the two axes has length 0. *)
Definition empty (df : DataFrame) : bool :=
  match df with
  | [] => true
  | _ => Nat.eqb (len df) 0
  end.

(** Row [i], read across the columns. *)
Definition row (df : DataFrame) (i : nat) : list cell :=
  map (fun c => nth i (values c) NA) df.

Definition rows (df : DataFrame) : list (list cell) :=
  map (row df) (seq 0 (len df)).

(** ** Column hygiene: [find_suspicious_columns] *)

(** The dictionary the function returns has four fixed keys. *)
Record Suspicious := {
  unnamed_columns : list label;
  duplicate_columns : list label;
  whitespace_columns : list label;
  bom_columns : list label
}.

(** The four tests, as the comprehensions write them. *)
Definition unnamed_test (c : label) : bool :=
  startswith (lower (py_str c)) (lit "unnamed").

Definition whitespace_test (c : label) : bool :=
  match c with
  | LStr s => negb (bool_decide (s = strip s))
  | _ => false
  end.

Definition bom_test (c : label) : bool :=
  match c with
  | LStr s => contains BOM s
  | _ => false
  end.

Definition find_suspicious_columns (df : DataFrame) : Suspicious :=
  let cols := columns df in
  let unnamed := List.filter unnamed_test cols in
  let dup_cols := select (columns df) (duplicated (columns df)) in
  let leading_trailing_ws := List.filter whitespace_test cols in
  let bom_cols := List.filter bom_test cols in
  {| unnamed_columns := unnamed;
     duplicate_columns := dup_cols;
     whitespace_columns := leading_trailing_ws;
     bom_columns := bom_cols |}.

(** ** Numbers *)

(** [a / b] on two [int]s: true division. *)
Definition py_truediv (a b : Z) : result Q :=
  if b =? 0 then Raise ZeroDivisionError else Ok (inject_Z a / inject_Z b)%Q.

(** Rounding of a rational to the nearest integer, ties to the even one. *)
Definition round_half_even (x : Q) : Z :=
  let f := Qfloor x in
  match ((x - inject_Z f) ?= (1 # 2))%Q with
  | Lt => f
  | Gt => f + 1
  | Eq => if Z.even f then f else f + 1
  end.

(** [round(x, ndigits)] for [ndigits >= 0]: the float is printed with
    [ndigits] decimals, correctly rounded from its exact value, and read
    back. *)
Definition py_round (x : Q) (ndigits : Z) : Q :=
  let scale := 10 ^ ndigits in
  (inject_Z (round_half_even (x * inject_Z scale)) / inject_Z scale)%Q.

(** ** Series and sorting *)

(** A series: values under labels, in order. *)
Definition Series (V : Type) := list (label * V).

(** [l[:n]] on a list, the slice behind [head(n)]: the first [n] entries,
    and for a negative [n] all but the last [-n]. *)
Definition slice_to {A} (n : Z) (l : list A) : list A :=
  if 0 <=? n then take (Z.to_nat n) l
  else take (length l - Z.to_nat (- n)) l.

(** [s.head(n)] *)
Definition pd_head {V} (n : Z) (s : list V) : list V := slice_to n s.

(** A float that may be [NaN]. *)
Definition nanfloat := option Q.

(** Descending order of [sort_values(ascending=False)]: larger values
    first, [NaN] last. *)
Definition desc_leb (a b : nanfloat) : bool :=
  match a, b with
  | _, None => true
  | None, Some _ => false
  | Some x, Some y => Qle_bool y x
  end.

(** Sorting along a boolean order.  The order of entries that compare equal
    is the library's and is not part of any statement below. *)
Definition sort_by {A} (leb : A -> A -> bool) (l : list A) : list A :=
  merge_sort (fun a b => Is_true (leb a b)) l.

(** [s.sort_values(ascending=False)] *)
Definition sort_values_desc (s : Series nanfloat) : Series nanfloat :=
  sort_by (fun a b => desc_leb (snd a) (snd b)) s.

(** ** Audit *)

(** The statistics [describe] knows; [Percentile p] is the one labelled
    "p%". *)
Inductive stat := Count | Mean | Std | Min | Percentile (p : N) | Max.

(** What the runtime computes and the table model does not carry: the bytes
    [memory_usage(deep=True)] reports, and the floating-point value of a
    statistic of a column. *)
Class Runtime := {
  memory_usage_deep : DataFrame -> N;
  statistic : stat -> list cell -> cell
}.

Record AuditResult := {
  shape : nat * nat;
  n_duplicates : Z;
  duplicate_rate : Q;
  memory_mb : Q;
  object_columns : list label;
  missing_top : Series nanfloat;
  label_counts : option (list (cell * nat))
}.

(** [pd.isna] on a value *)
Definition isna (v : cell) : bool :=
  match v with NA => true | _ => false end.

(** [mask.mean()] of a boolean column: [NaN] when it has no entry. *)
Definition bool_mean (mask : list bool) : nanfloat :=
  match mask with
  | [] => None
  | _ => Some (inject_Z (Z.of_nat (count_true mask))
               / inject_Z (Z.of_nat (length mask)))%Q
  end.

(** [df.isna().mean()] *)
Definition isna_mean (df : DataFrame) : Series nanfloat :=
  map (fun c => (name c, bool_mean (map isna (values c)))) df.

(** [s * 100] *)
Definition times_100 (s : Series nanfloat) : Series nanfloat :=
  map (fun e => (fst e, option_map (fun x => x * 100)%Q (snd e))) s.

(** [df.select_dtypes(include=kinds)] *)
Definition select_dtypes (kinds : list dtype) (df : DataFrame) : DataFrame :=
  List.filter (fun c => bool_decide (dtype_of c ∈ kinds)) df.

(** [df[label]]: the columns under that label. *)
Definition getitem (df : DataFrame) (l : label) : DataFrame :=
  List.filter (fun c => bool_decide (name c = l)) df.

(** What the library's hash tables compare of a value.  Values of one
    column are equal as in Python: numbers by their value, whatever their
    type ([1 == 1.0 == True]), texts by their characters, and the missing
    values are all alike. *)
Inductive key :=
| KMissing
| KNumber (q : Qc)
| KText (s : str).

Global Instance key_eq_dec : EqDecision key.
Proof. solve_decision. Defined.

Definition key_of (v : cell) : key :=
  match v with
  | NA => KMissing
  | VInt n => KNumber (Q2Qc (inject_Z n))
  | VFloat q => KNumber q
  | VBool b => KNumber (Q2Qc (if b then 1 else 0))
  | VStr s => KText s
  end.

(** The rows as the library compares them. *)
Definition row_keys (df : DataFrame) : list (list key) :=
  map (map key_of) (rows df).

(** [df.duplicated()]: a row is marked when a row before it has an equal
    value in every column. *)
Definition df_duplicated (df : DataFrame) : list bool :=
  duplicated (row_keys df).

(** [s.value_counts()] on the values of one column: every value that
    occurs, as it is met first, with the number of entries equal to it;
    missing values left out, most frequent first. *)
Definition value_counts (vs : list cell) : list (cell * nat) :=
  let kept := List.filter (fun v => negb (isna v)) vs in
  let firsts := select kept (map negb (duplicated (map key_of kept))) in
  sort_by (fun a b => Nat.leb (snd b) (snd a))
          (map (fun v =>
                  (v, length (List.filter (fun w => bool_decide (key_of w = key_of v)) kept)))
               firsts).

(** [df[label_col].value_counts()].  Under a label that one column carries
    the selection is that column; under a repeated label it is a frame of
    all the columns that carry it, and counting its rows groups by the
    repeated label, which the library refuses with a [ValueError]. *)
Definition label_value_counts (df : DataFrame) (label_col : label)
    : result (list (cell * nat)) :=
  match getitem df label_col with
  | [s] => Ok (value_counts (values s))
  | _ => Raise ValueError
  end.

Definition basic_audit `{Runtime} (df : DataFrame) (label_col : label)
    (missing_top_k : Z) : result AuditResult :=
  (* duplicates *)
  let n_dup := Z.of_nat (count_true (df_duplicated df)) in
  rbind (if negb (Nat.eqb (len df) 0)
         then py_truediv n_dup (Z.of_nat (len df))
         else Ok 0%Q) (fun dup_rate =>
  (* memory *)
  let mem_mb := (inject_Z (Z.of_N (memory_usage_deep df)) / inject_Z (1024 ^ 2))%Q in
  (* object cols *)
  let obj_cols := columns (select_dtypes [object] df) in
  (* missingness *)
  let missing_pct := sort_values_desc (times_100 (isna_mean df)) in
  let missing_top := pd_head missing_top_k missing_pct in
  (* label counts *)
  rbind (if bool_decide (label_col ∈ columns df)
         then rbind (label_value_counts df label_col) (fun counts => Ok (Some counts))
         else Ok None) (fun label_counts =>
  Ok {| shape := (len df, length df);
        n_duplicates := n_dup;
        duplicate_rate := dup_rate;
        memory_mb := mem_mb;
        object_columns := obj_cols;
        missing_top := missing_top;
        label_counts := label_counts |})).

(** ** Numeric summary *)

(** A table of statistics: one row per entry of [index], one column per
    entry of [stats]. *)
Record Summary := {
  index : list label;
  stats : list stat;
  body : list (list cell)
}.

(** [pd.DataFrame()] *)
Definition empty_table : Summary := {| index := []; stats := []; body := [] |}.

(** The statistics of [describe(percentiles=[0.01, 0.5, 0.99])], in the
    order the library lists them. *)
Definition describe_stats : list stat :=
  [Count; Mean; Std; Min; Percentile 1; Percentile 50; Percentile 99; Max].

(** [num_df.describe(percentiles=[0.01, 0.5, 0.99]).T] on numeric columns *)
Definition describe_T `{Runtime} (num_df : DataFrame) : Summary :=
  {| index := columns num_df;
     stats := describe_stats;
     body := map (fun c => map (fun s => statistic s (values c)) describe_stats) num_df |}.

(** [summary.head(n)] *)
Definition summary_head (n : Z) (s : Summary) : Summary :=
  {| index := pd_head n (index s); stats := stats s; body := pd_head n (body s) |}.

Definition numeric_summary `{Runtime} (df : DataFrame) (max_cols : Z) : Summary :=
  let num_df := select_dtypes [int64; float64] df in
  if empty num_df then empty_table
  else
    let summary := describe_T num_df in
    summary_head max_cols summary.

(** ** The object store

    [clean_column_names] copies the frame it is given and assigns to the
    copy, so frames are objects in a store and a function that copies or
    assigns runs in a state monad over it. *)

Abbreviation ref := nat.
Abbreviation store := (gmap nat DataFrame).

(** A reference outside the store is not something the interpreter can hand
    to a function; the operations below need a way to say so. *)
Inductive outcome (A : Type) :=
| Returns (r : result A) (σ : store)
| Dangling.
Arguments Returns {A} r σ.
Arguments Dangling {A}.

Definition M (A : Type) : Type := store -> outcome A.

Global Instance M_ret : MRet M := fun A a σ => Returns (Ok a) σ.
Global Instance M_bind : MBind M := fun A B k m σ =>
  match m σ with
  | Returns (Ok a) σ' => k a σ'
  | Returns (Raise e) σ' => Returns (Raise e) σ'
  | Dangling => Dangling
  end.

(** A pure computation that may raise. *)
Definition lift {A} (r : result A) : M A := fun σ => Returns r σ.

Definition read (r : ref) : M DataFrame := fun σ =>
  match σ !! r with
  | Some df => Returns (Ok df) σ
  | None => Dangling
  end.

Definition write (r : ref) (df : DataFrame) : M unit := fun σ =>
  Returns (Ok tt) (<[r := df]> σ).

(** A new object. *)
Definition alloc (df : DataFrame) : M ref := fun σ =>
  let r := fresh (dom σ) in Returns (Ok r) (<[r := df]> σ).

(** [df.copy()] *)
Definition df_copy (r : ref) : M ref := df ← read r; alloc df.

(** [df.columns] *)
Definition get_columns (r : ref) : M (list label) :=
  df ← read r; mret (columns df).

Definition set_name (l : label) (c : Column) : Column :=
  {| name := l; dtype_of := dtype_of c; values := values c |}.

(** [df.columns = cols]: the new labels must be as many as the columns. *)
Definition assign_columns (cols : list label) (df : DataFrame) : result DataFrame :=
  if Nat.eqb (length cols) (length df)
  then Ok (zip_with set_name cols df)
  else Raise ValueError.

Definition set_columns (r : ref) (cols : list label) : M unit :=
  df ← read r; df' ← lift (assign_columns cols df); write r df'.

(** [idx.astype(str)] *)
Definition astype_str (idx : list label) : list label :=
  map (fun c => LStr (py_str c)) idx.

(** [idx.str.f(...)], a string method applied to every label.  The module
    applies it to text labels only: those [read_csv] gives and those
    [astype(str)] returns.  On an index that holds another kind of label
    the library refuses or answers [NaN]; both are rendered by
    [AttributeError]. *)
Definition str_accessor (f : str -> str) (idx : list label) : result (list label) :=
  if forallb is_str idx
  then Ok (map (fun c => LStr (f (py_str c))) idx)
  else Raise AttributeError.

Definition clean_column_names (df : ref) : M ref :=
  df ← df_copy df;
  cols ← get_columns df;
  cols ← lift (str_accessor (replace BOM []) (astype_str cols));
  cols ← lift (str_accessor strip cols);
  set_columns df cols;;
  mret df.

(** ** Paths and the file system *)

(** A [pathlib.Path]: its parts, as written.  An absolute path starts with
    the part "/". *)
Definition Path := list str.

(** The slash. *)
Definition SEP : char := 47%N.

(** The pieces of a string between the occurrences of [sep]. *)
Fixpoint split_on (sep : char) (s : str) : list str :=
  match s with
  | [] => [[]]
  | c :: s' =>
      if (c =? sep)%N then [] :: split_on sep s'
      else match split_on sep s' with
           | w :: ws => (c :: w) :: ws
           | [] => [[c]]
           end
  end.

(** The parts of a path written as text: empty pieces and "." are dropped. *)
Definition parse_parts (s : str) : list str :=
  List.filter (fun w => negb (bool_decide (w = []) || bool_decide (w = lit ".")))
              (split_on SEP s).

(** [dir / s]: a text that starts with a slash replaces [dir]. *)
Definition joinpath (dir : Path) (s : str) : Path :=
  match s with
  | c :: _ => if (c =? SEP)%N then lit "/" :: parse_parts s else dir ++ parse_parts s
  | [] => dir
  end.

(** [p.name] *)
Definition path_name (p : Path) : str := List.last p [].

(** Comparison of two paths, part by part: the order [sorted] uses on
    POSIX paths. *)
Definition path_compare (p q : Path) : comparison := lex_compare Str.compare p q.

Definition path_leb (p q : Path) : bool :=
  match path_compare p q with Gt => false | _ => true end.

(** [sorted(paths)] *)
Definition sorted (l : list Path) : list Path := sort_by path_leb l.

(** The content of a CSV file as the reader tokenises it: the column names
    it assigns (the header cells, with its placeholder for a blank cell and
    its suffix for a repeated one) and the data rows. *)
Record Csv := { header : list str; records : list (list cell) }.

(** A directory entry.  A file whose bytes the CSV reader rejects has no
    [Csv] content. *)
Inductive node :=
| Dir (st_size : N)
| File (st_size : N) (content : option Csv).

(** The file system: what stands at each path.  Paths are looked up as
    written: "..", links and the working directory are not resolved. *)
Abbreviation filesystem := (gmap (list (list N)) node).

(** [p.exists()] *)
Definition exists_ (fs : filesystem) (p : Path) : bool :=
  bool_decide (is_Some (fs !! p)).

(** [p.stat().st_size] *)
Definition stat_size (fs : filesystem) (p : Path) : N :=
  match fs !! p with
  | Some (Dir n) | Some (File n _) => n
  | None => 0%N
  end.

(** [name] ends with [suffix]. *)
Definition endswith (name suffix : str) : bool :=
  bool_decide (drop (length name - length suffix) name = suffix).

(** [p] is an entry of the directory [dir] whose name matches "*" followed
    by [suffix]. *)
Definition glob_match (dir : Path) (suffix : str) (p : Path) : bool :=
  bool_decide (p = dir ++ [path_name p]) && endswith (path_name p) suffix.

(** [dir.glob("*" + suffix)]: the matching entries of [dir], in the order
    the system lists them; nothing when [dir] is not a directory. *)
Definition glob (fs : filesystem) (dir : Path) (suffix : str) : list Path :=
  match fs !! dir with
  | Some (Dir _) => List.filter (glob_match dir suffix) (map fst (map_to_list fs))
  | _ => []
  end.

(** ** File discovery

    A size in bytes divided by 1024² is exact in binary floating point (for
    sizes below 2^53), so [round] works on the exact quotient. *)

Definition list_csv_files (fs : filesystem) (data_raw_dir : Path) : result DataFrame :=
  if negb (exists_ fs data_raw_dir)
  then Raise (FileNotFoundError RawDirNotFound data_raw_dir)
  else
    let csv_files := sorted (glob fs data_raw_dir (lit ".csv")) in
    match csv_files with
    | [] => Raise (FileNotFoundError NoCsvFound data_raw_dir)
    | _ =>
        Ok [ {| name := LStr (lit "file"); dtype_of := object;
                values := map (fun f => VStr (path_name f)) csv_files |};
             {| name := LStr (lit "size_mb"); dtype_of := float64;
                values := map (fun f =>
                  VFloat (Q2Qc (py_round
                    (inject_Z (Z.of_N (stat_size fs f)) / inject_Z (1024 ^ 2)) 2)))
                  csv_files |} ]
    end.

Definition pick_file (fs : filesystem) (data_raw_dir : Path)
    (preferred_name : option str) : result Path :=
  let csv_files := sorted (glob fs data_raw_dir (lit ".csv")) in
  match csv_files with
  | [] => Raise (FileNotFoundError NoCsvFound data_raw_dir)
  | first :: _ =>
      match preferred_name with
      | Some ((_ :: _) as preferred_name) =>
          let candidate := joinpath data_raw_dir preferred_name in
          if exists_ fs candidate then Ok candidate else Ok first
      | _ => Ok first
      end
  end.

(** ** Loading *)

(** The type the reader gives a column from the values it has read. *)
Definition infer_dtype (vs : list cell) : dtype :=
  match vs with
  | [] => object
  | _ =>
      if forallb (fun v => match v with VInt _ => true | _ => false end) vs then int64
      else if forallb (fun v => match v with VInt _ | VFloat _ | NA => true | _ => false end) vs
      then float64
      else if forallb (fun v => match v with VBool _ => true | _ => false end) vs then bool_
      else object
  end.

(** The frame of a header and the rows read under it. *)
Definition frame_of (hd : list str) (rs : list (list cell)) : DataFrame :=
  imap (fun i h =>
          let vs := map (fun r => nth i r NA) rs in
          {| name := LStr h; dtype_of := infer_dtype vs; values := vs |}) hd.

(** [pd.read_csv(path, nrows=nrows)]; [nrows] is [None] for a full read. *)
Definition read_csv (fs : filesystem) (path : Path) (nrows : option Z) : result DataFrame :=
  match fs !! path with
  | None => Raise (FileNotFoundError NoSuchFile path)
  | Some (Dir _) => Raise IsADirectoryError
  | Some (File _ None) => Raise ParserError
  | Some (File _ (Some csv)) =>
      match header csv with
      | [] => Raise ParserError
      | hd =>
          rbind (match nrows with
                 | None => Ok (records csv)
                 | Some n => if n <? 0 then Raise ValueError
                             else Ok (take (Z.to_nat n) (records csv))
                 end) (fun rs =>
          if forallb (fun r => Nat.eqb (length r) (length hd)) rs
          then Ok (frame_of hd rs)
          else Raise ParserError)
      end
  end.

Definition load_peek (fs : filesystem) (csv_path : Path) (nrows : Z) : result DataFrame :=
  if negb (exists_ fs csv_path)
  then Raise (FileNotFoundError CsvNotFound csv_path)
  else
    rbind (read_csv fs csv_path (Some nrows)) (fun df =>
    rbind (str_accessor strip (columns df)) (fun cols =>
    assign_columns cols df)).

Definition load_full (fs : filesystem) (csv_path : Path) : result DataFrame :=
  if negb (exists_ fs csv_path)
  then Raise (FileNotFoundError CsvNotFound csv_path)
  else
    rbind (read_csv fs csv_path None) (fun df =>
    rbind (str_accessor strip (columns df)) (fun cols =>
    assign_columns cols df)).


(** ** The module in the words of the specification

    These definitions follow the specification, not the code; the
    statements of the second part compare them with what the functions
    compute. *)

(** The number a value stands for, if it is one: [True] is 1 and [False]
    is 0. *)
Definition number_of (v : cell) : option Q :=
  match v with
  | VInt n => Some (inject_Z n)
  | VFloat q => Some (this q)
  | VBool b => Some (if b then 1 else 0)%Q
  | _ => None
  end.

(** Two values are equal: two missing values, two equal texts, or two
    numbers of the same value. *)
Definition equal_values (a b : cell) : bool :=
  match a, b with
  | NA, NA => true
  | VStr s, VStr t => bool_decide (s = t)
  | _, _ =>
      match number_of a, number_of b with
      | Some x, Some y => Qeq_bool x y
      | _, _ => false
      end
  end.

(** Rows [j] and [i] agree in every column. *)
Definition same_row (df : DataFrame) (j i : nat) : bool :=
  forallb (fun c => equal_values (nth j (values c) NA) (nth i (values c) NA)) df.

(** Row [i] is fully equal to a row before it. *)
Definition repeats_earlier_row (df : DataFrame) (i : nat) : bool :=
  existsb (fun j => same_row df j i) (seq 0 i).

(** The number of fully-duplicate rows, a first occurrence not counted. *)
Definition count_repeated_rows (df : DataFrame) : nat :=
  length (List.filter (repeats_earlier_row df) (seq 0 (len df))).

(** The number of missing values of a column. *)
Definition null_count (c : Column) : nat := length (List.filter isna (values c)).

(** [null_count / row_count * 100]; not a number without rows. *)
Definition missing_percent (df : DataFrame) (c : Column) : nanfloat :=
  if Nat.eqb (len df) 0 then None
  else Some (inject_Z (Z.of_nat (null_count c)) / inject_Z (Z.of_nat (len df)) * 100)%Q.

(** The label as text, every U+FEFF taken out, then stripped. *)
Definition clean_label (c : label) : label :=
  LStr (strip (List.filter (fun x => negb (x =? BOM)%N) (py_str c))).

(** ** Tables and directories used in the statements *)

(** A runtime that reports eight bytes per value and computes no statistic
    but the count. *)
Definition sample_runtime : Runtime :=
  {| memory_usage_deep := fun df => N.of_nat (8 * len df * length df);
     statistic := fun s vs =>
       match s with
       | Count => VInt (Z.of_nat (length (List.filter (fun v => negb (isna v)) vs)))
       | _ => NA
       end |}.

(** A column without rows under a label. *)
Definition named (l : label) : Column :=
  {| name := l; dtype_of := object; values := [] |}.

(** The columns "Unnamed: 0", " Flow ID", "Flow ID" and U+FEFF "Label". *)
Definition flow_columns : list label :=
  [LStr (lit "Unnamed: 0"); LStr (lit " Flow ID"); LStr (lit "Flow ID");
   LStr (BOM :: lit "Label")].
Definition flow_table : DataFrame := map named flow_columns.

(** Twice the label "Unnamed" followed by U+FEFF and a space. *)
Definition padded_label : label := LStr (lit "Unnamed" ++ [BOM; 32%N]).
Definition padded_table : DataFrame := [named padded_label; named padded_label].

(** A label that is no text and prints as "Unnamed_dir", next to one that
    is an [int]. *)
Definition object_label : label := LObj 0 (lit "Unnamed_dir").
Definition object_table : DataFrame := [named object_label; named (LInt 7)].

(** Four rows; the third repeats the first. *)
Definition repeated_table : DataFrame :=
  [ {| name := LStr (lit "Port"); dtype_of := int64;
       values := [VInt 80; VInt 443; VInt 80; VInt 22] |};
    {| name := LStr (lit "Label"); dtype_of := object;
       values := [VStr (lit "BENIGN"); VStr (lit "DDoS"); VStr (lit "BENIGN"); NA] |} ].

(** Two rows under the labels " Label" and "Label", which cleaning makes
    the same label. *)
Definition twin_label_table : DataFrame :=
  [ {| name := LStr (lit " Label"); dtype_of := object;
       values := [VStr (lit "BENIGN"); VStr (lit "DDoS")] |};
    {| name := LStr (lit "Label"); dtype_of := object;
       values := [VStr (lit "BENIGN"); VStr (lit "BENIGN")] |} ].

(** One column of objects: the numbers 1 and [True], equal in Python, and
    the text "1". *)
Definition loose_table : DataFrame :=
  [ {| name := LStr (lit "Label"); dtype_of := object;
       values := [VInt 1; VBool true; VStr (lit "1")] |} ].

(** Thirty numeric columns "0" to "29", each holding the values [vs]. *)
Definition thirty_numeric (vs : list cell) : DataFrame :=
  map (fun i => {| name := LStr (of_int (Z.of_nat i)); dtype_of := float64; values := vs |})
      (seq 0 30).

(** Three columns whose labels are an [int], a padded text that holds
    U+FEFF twice, and another object. *)
Definition mixed_table : DataFrame :=
  [ {| name := LInt 7; dtype_of := int64; values := [VInt 1; VInt 2] |};
    {| name := LStr (32%N :: BOM :: lit "Flow" ++ BOM :: lit " ID ");
       dtype_of := object; values := [VStr (lit "a"); NA] |};
    {| name := object_label; dtype_of := float64; values := [NA; NA] |} ].

(** The directory "data" with "b.csv" of 1048576 bytes, "a.csv" of
    2097152 bytes and "notes.txt"; "b.csv" holds three data rows. *)
Definition data_dir : Path := [lit "data"].

Definition small_csv : Csv :=
  {| header := [lit " Flow ID"; lit "Label "];
     records := [[VInt 1; VStr (lit "BENIGN")]; [VInt 2; NA]; [VInt 3; VStr (lit "DDoS")]] |}.

Definition data_fs : filesystem :=
  <[ data_dir ++ [lit "b.csv"] := File 1048576 (Some small_csv) ]>
  (<[ data_dir ++ [lit "a.csv"] := File 2097152 None ]>
  (<[ data_dir ++ [lit "notes.txt"] := File 10 None ]>
  (<[ data_dir := Dir 4096 ]> ∅))).

(** A file of 1000 data rows under padded column names. *)
Definition long_csv : Csv :=
  {| header := [lit " Flow ID"; lit "Label "];
     records := map (fun i => [VInt (Z.of_nat i); VStr (lit "BENIGN")]) (seq 0 1000) |}.

Definition long_path : Path := [lit "data"; lit "long.csv"].

Definition long_fs : filesystem :=
  <[ long_path := File 20000 (Some long_csv) ]> (<[ data_dir := Dir 4096 ]> ∅).


(** The entry of the "size_mb" column for a file of [bytes] bytes, as
    [list_csv_files] writes it: [round(st_size / (1024**2), 2)]. *)
Definition size_mb (bytes : N) : Q :=
  py_round (inject_Z (Z.of_N bytes) / inject_Z (1024 ^ 2)) 2.

(** How often [k] occurs in [l]. *)
Definition occurrences {A} `{EqDecision A} (k : A) (l : list A) : nat :=
  length (List.filter (fun r => bool_decide (r = k)) l).

(** One column under a new name computed from the old one: what assigning
    [df.columns = f(df.columns)] does to each column. *)
Definition rename (f : label -> label) (c : Column) : Column :=
  set_name (f (name c)) c.
(** * Properties *)

(** ** Strings *)

Section StrFacts.
Implicit Types (s t : str) (c : char).

Lemma lstrip_cons_inv s c t : lstrip s = c :: t -> isspace c = false.
Proof.
  induction s as [|a s IH]; simpl; [discriminate|].
  destruct (isspace a) eqn:Ha; [exact IH|].
  intros [= -> _]. exact Ha.
Qed.

Lemma rstrip_cons_nonspace c s :
  isspace c = false -> exists r, rstrip (c :: s) = c :: r.
Proof.
  intros Hc. simpl. destruct (rstrip s) as [|b r].
  - rewrite Hc. by exists [].
  - by exists (b :: r).
Qed.

Lemma rstrip_idem s : rstrip (rstrip s) = rstrip s.
Proof.
  induction s as [|c s IH]; [done|]. simpl.
  destruct (rstrip s) as [|b r] eqn:E.
  - destruct (isspace c) eqn:Hc; simpl; [done|]. by rewrite Hc.
  - change (rstrip (c :: b :: r)) with
      (match rstrip (b :: r) with [] => if isspace c then [] else [c] | x => c :: x end).
    by rewrite IH.
Qed.

Lemma lstrip_nonspace c s : isspace c = false -> lstrip (c :: s) = c :: s.
Proof. intros Hc. simpl. by rewrite Hc. Qed.

Lemma strip_idem s : strip (strip s) = strip s.
Proof.
  unfold strip. destruct (lstrip s) as [|c t] eqn:E; [done|].
  pose proof (lstrip_cons_inv _ _ _ E) as Hc.
  destruct (rstrip_cons_nonspace c t Hc) as [r Hr].
  rewrite Hr, (lstrip_nonspace c r Hc), <- Hr. apply rstrip_idem.
Qed.

Lemma lstrip_elem c s : c ∈ lstrip s -> c ∈ s.
Proof.
  induction s as [|a s IH]; simpl; [done|].
  destruct (isspace a); [|done]. intros ?. right. auto.
Qed.

Lemma rstrip_elem c s : c ∈ rstrip s -> c ∈ s.
Proof.
  induction s as [|a s IH]; simpl; [done|].
  destruct (rstrip s) as [|b r].
  - destruct (isspace a); [by intros ?%elem_of_nil|].
    intros ->%list_elem_of_singleton. left.
  - intros [->|?]%elem_of_cons; [left|right; auto].
Qed.

Lemma strip_elem c s : c ∈ strip s -> c ∈ s.
Proof. intros ?%rstrip_elem. by apply lstrip_elem. Qed.

(** The first and the last code point of a stripped string are no
    whitespace. *)
Lemma strip_first s c t : strip s = c :: t -> isspace c = false.
Proof.
  unfold strip. destruct (lstrip s) as [|a u] eqn:E; [done|].
  pose proof (lstrip_cons_inv _ _ _ E) as Ha.
  destruct (rstrip_cons_nonspace a u Ha) as [r ->]. by intros [= <- _].
Qed.

Lemma rstrip_last s c t : rstrip s = t ++ [c] -> isspace c = false.
Proof.
  revert t. induction s as [|a s IH]; intros t; simpl.
  - by destruct t.
  - destruct (rstrip s) as [|b r] eqn:E.
    + destruct (isspace a) eqn:Ha; [by destruct t|].
      destruct t as [|? [|]]; intros [=]; by subst.
    + destruct t as [|x t]; [intros [=]|].
      intros [= -> Hr]. by apply (IH t).
Qed.

Lemma strip_last s c t : strip s = t ++ [c] -> isspace c = false.
Proof. apply rstrip_last. Qed.

Lemma replace_remove old s :
  replace old [] s = List.filter (fun c => negb (c =? old)%N) s.
Proof.
  unfold replace. induction s as [|a s IH]; [done|]. simpl.
  destruct (a =? old)%N; simpl; by rewrite IH.
Qed.

Lemma replace_absent old s : old ∉ s -> replace old [] s = s.
Proof.
  intros H. unfold replace. induction s as [|a s IH]; [done|]. simpl.
  apply not_elem_of_cons in H as [Hne Hs].
  destruct (N.eqb_spec a old); [congruence|]. simpl. by rewrite IH.
Qed.

Lemma replace_gone old s : old ∉ replace old [] s.
Proof.
  rewrite replace_remove. intros H%list_elem_of_In%filter_In.
  destruct H as [_ H]. by rewrite N.eqb_refl in H.
Qed.

Lemma contains_elem c s : contains c s = true <-> c ∈ s.
Proof.
  unfold contains. rewrite existsb_exists. split.
  - intros (x & Hx & ->%N.eqb_eq). by apply list_elem_of_In.
  - intros H. exists c. split; [by apply list_elem_of_In|apply N.eqb_refl].
Qed.
End StrFacts.

(** ** Duplicate marking *)

Section DuplicatedFacts.
Context {A : Type} `{EqDecision A}.
Implicit Types (l seen : list A) (x : A).

Lemma duplicated_from_length seen l :
  length (duplicated_from seen l) = length l.
Proof. revert seen. induction l; intros; simpl; auto. Qed.

(** An entry is marked exactly when it was seen or stands earlier. *)
Lemma duplicated_from_lookup seen l i x :
  l !! i = Some x ->
  duplicated_from seen l !! i = Some (bool_decide (x ∈ seen ∨ x ∈ take i l)).
Proof.
  revert seen i. induction l as [|a l IH]; intros seen [|i] Hx; simplify_eq/=.
  - f_equal. apply bool_decide_ext. set_solver.
  - rewrite (IH _ _ Hx). f_equal. apply bool_decide_ext. set_solver.
Qed.

Lemma elem_of_select_duplicated_from seen l x :
  x ∈ select l (duplicated_from seen l) <->
  exists i, l !! i = Some x ∧ (x ∈ seen ∨ x ∈ take i l).
Proof.
  revert seen. induction l as [|a l IH]; intros seen; simpl.
  - split; [by intros ?%elem_of_nil|by intros ([|?] & ? & _)].
  - assert (x ∈ select l (duplicated_from (a :: seen) l) <->
            exists i, (a :: l) !! S i = Some x
                      ∧ (x ∈ seen ∨ x ∈ take (S i) (a :: l))) as IH'.
    { rewrite IH. simpl. apply exist_proper. intros i. set_solver. }
    case_bool_decide as Ha; [rewrite elem_of_cons|]; rewrite IH'; split.
    + intros [->|(i & ?)]; [exists O; simpl; auto|eauto].
    + intros ([|i] & Hi & Hs); [left; by simplify_eq/=|right; eauto].
    + intros (i & ?); eauto.
    + intros ([|i] & Hi & Hs); [|eauto]. simplify_eq/=. set_solver.
Qed.

Lemma elem_of_take_lookup l i x :
  x ∈ take i l <-> exists j, (j < i)%nat ∧ l !! j = Some x.
Proof.
  rewrite list_elem_of_lookup. split.
  - intros (j & Hj). pose proof (lookup_lt_Some _ _ _ Hj) as Hlt.
    rewrite length_take in Hlt. exists j. split; [lia|].
    by rewrite lookup_take_lt in Hj by lia.
  - intros (j & Hlt & Hj). exists j. by rewrite lookup_take_lt by lia.
Qed.

(** The selected entries are those that repeat an earlier one. *)
Lemma elem_of_select_duplicated l x :
  x ∈ select l (duplicated l) <->
  exists i j, (j < i)%nat ∧ l !! i = Some x ∧ l !! j = Some x.
Proof.
  unfold duplicated. rewrite elem_of_select_duplicated_from. split.
  - intros (i & Hi & [[]%elem_of_nil|(j & ? & ?)%elem_of_take_lookup]). eauto.
  - intros (i & j & ? & ? & ?). exists i. split; [done|right].
    apply elem_of_take_lookup. eauto.
Qed.

Lemma select_sublist l (mask : list bool) : select l mask `sublist_of` l.
Proof.
  revert mask. induction l as [|a l IH]; intros [|[] mask]; simpl;
    try apply sublist_nil_l; [by apply sublist_skip|by apply sublist_cons].
Qed.

Lemma count_true_cons (b : bool) (mask : list bool) :
  count_true (b :: mask) = ((if b then 1 else 0) + count_true mask)%nat.
Proof.
  unfold count_true. rewrite filter_cons. destruct b; simpl; [done|].
  by destruct (decide (false = true)).
Qed.

End DuplicatedFacts.

Lemma elem_of_list_filter_bool {A} (p : A -> bool) (l : list A) x :
  x ∈ List.filter p l <-> x ∈ l ∧ p x = true.
Proof. by rewrite !list_elem_of_In, filter_In. Qed.

Lemma list_filter_sublist {A} (p : A -> bool) (l : list A) :
  List.filter p l `sublist_of` l.
Proof.
  induction l as [|a l IH]; simpl; [done|].
  destruct (p a); [by apply sublist_skip|by apply sublist_cons].
Qed.

(** ** [find_suspicious_columns] *)

Lemma elem_of_unnamed_columns df c :
  c ∈ unnamed_columns (find_suspicious_columns df) <->
  c ∈ columns df ∧ startswith (lower (py_str c)) (lit "unnamed") = true.
Proof. exact (elem_of_list_filter_bool unnamed_test (columns df) c). Qed.

Lemma elem_of_whitespace_columns df c :
  c ∈ whitespace_columns (find_suspicious_columns df) <->
  c ∈ columns df ∧ exists s, c = LStr s ∧ s ≠ strip s.
Proof.
  cbn. rewrite elem_of_list_filter_bool. apply and_iff_compat_l.
  destruct c as [s| |]; simpl.
  - rewrite negb_true_iff, bool_decide_eq_false. split; [eauto|].
    by intros (? & [= <-] & ?).
  - split; [done|by intros (? & ? & _)].
  - split; [done|by intros (? & ? & _)].
Qed.

Lemma elem_of_bom_columns df c :
  c ∈ bom_columns (find_suspicious_columns df) <->
  c ∈ columns df ∧ exists s, c = LStr s ∧ BOM ∈ s.
Proof.
  cbn. rewrite elem_of_list_filter_bool. apply and_iff_compat_l.
  destruct c as [s| |]; simpl.
  - rewrite contains_elem. split; [eauto|]. by intros (? & [= <-] & ?).
  - split; [done|by intros (? & ? & _)].
  - split; [done|by intros (? & ? & _)].
Qed.

(** C2 (amended).  The four lists are computed one by one from the column
    labels, each by its own test and in column order: the labels whose
    lower-cased text starts with "unnamed"; the labels that repeat an
    earlier, equal label; the text labels that differ from their stripped
    form; the text labels that contain U+FEFF.  A label can stand in
    several lists (the second label of [padded_table] stands in all four).
    On the columns "Unnamed: 0", " Flow ID", "Flow ID", "\ufeffLabel" the
    unnamed list is ["Unnamed: 0"], the whitespace list is [" Flow ID"],
    the BOM list is ["\ufeffLabel"], and the duplicate list is empty:
    " Flow ID" and "Flow ID" are different labels. *)
Theorem find_suspicious_columns_lists (df : DataFrame) :
  let r := find_suspicious_columns df in
  (forall c, c ∈ unnamed_columns r <->
     c ∈ columns df ∧ startswith (lower (py_str c)) (lit "unnamed") = true)
  ∧ (forall c, c ∈ duplicate_columns r <->
       exists i j, (j < i)%nat ∧ columns df !! i = Some c ∧ columns df !! j = Some c)
  ∧ (forall c, c ∈ whitespace_columns r <->
       c ∈ columns df ∧ exists s, c = LStr s ∧ s ≠ strip s)
  ∧ (forall c, c ∈ bom_columns r <->
       c ∈ columns df ∧ exists s, c = LStr s ∧ BOM ∈ s)
  ∧ (unnamed_columns r `sublist_of` columns df
     ∧ duplicate_columns r `sublist_of` columns df
     ∧ whitespace_columns r `sublist_of` columns df
     ∧ bom_columns r `sublist_of` columns df)
  ∧ (let p := find_suspicious_columns padded_table in
     padded_label ∈ unnamed_columns p ∧ padded_label ∈ duplicate_columns p
     ∧ padded_label ∈ whitespace_columns p ∧ padded_label ∈ bom_columns p)
  ∧ find_suspicious_columns flow_table =
      {| unnamed_columns := [LStr (lit "Unnamed: 0")];
         duplicate_columns := [];
         whitespace_columns := [LStr (lit " Flow ID")];
         bom_columns := [LStr (BOM :: lit "Label")] |}.
Proof.
  intros r. split_and!.
  - intros c. apply elem_of_unnamed_columns.
  - intros c. apply elem_of_select_duplicated.
  - intros c. apply elem_of_whitespace_columns.
  - intros c. apply elem_of_bom_columns.
  - apply list_filter_sublist.
  - apply select_sublist.
  - apply list_filter_sublist.
  - apply list_filter_sublist.
  - intros p. split_and!; by apply (bool_decide_unpack _); vm_compute.
  - reflexivity.
Qed.

(** C2, as the specification words it, fails on its own example: it puts
    "Flow ID" in the duplicate list of the columns "Unnamed: 0", " Flow ID",
    "Flow ID", "\ufeffLabel", where no label occurs twice. *)
Lemma find_suspicious_columns_flow_no_duplicate :
  find_suspicious_columns flow_table <>
    {| unnamed_columns := [LStr (lit "Unnamed: 0")];
       duplicate_columns := [LStr (lit "Flow ID")];
       whitespace_columns := [LStr (lit " Flow ID")];
       bom_columns := [LStr (BOM :: lit "Label")] |}.
Proof. vm_compute. discriminate. Qed.

(** C10.  A label that is no text is in neither the whitespace list nor the
    BOM list; it is in the unnamed list exactly when it is a column label
    whose text [str(c)], lower-cased, starts with "unnamed".  Every label
    has such a text, so none is left out of that test. *)
Theorem find_suspicious_columns_non_text (df : DataFrame) (c : label) :
  is_str c = false ->
  let r := find_suspicious_columns df in
  (c ∉ whitespace_columns r)
  ∧ (c ∉ bom_columns r)
  ∧ (c ∈ unnamed_columns r <->
       c ∈ columns df ∧ startswith (lower (py_str c)) (lit "unnamed") = true).
Proof.
  intros Hc r. split; [|split].
  - intros (_ & s & -> & _)%elem_of_whitespace_columns. discriminate.
  - intros (_ & s & -> & _)%elem_of_bom_columns. discriminate.
  - apply elem_of_unnamed_columns.
Qed.

Lemma find_suspicious_columns_non_text_witness :
  let r := find_suspicious_columns object_table in
  (object_label ∉ whitespace_columns r)
  ∧ (object_label ∉ bom_columns r)
  ∧ (object_label ∈ unnamed_columns r <->
       object_label ∈ columns object_table
       ∧ startswith (lower (py_str object_label)) (lit "unnamed") = true).
Proof. exact (find_suspicious_columns_non_text object_table object_label eq_refl). Defined.

(** ** Rows *)

Lemma bool_eq_decide (b : bool) (P : Prop) `{Decision P} :
  (b = true <-> P) -> b = bool_decide P.
Proof. destruct b; case_bool_decide; naive_solver. Qed.

Lemma rows_length df : length (rows df) = len df.
Proof. unfold rows. by rewrite length_map, length_seq. Qed.


(** *** Equal values *)

Lemma Q2Qc_eq_Qc (x : Q) (q : Qc) : Q2Qc x = q <-> (x == this q)%Q.
Proof.
  split.
  - intros <-. symmetry. apply Qred_correct.
  - intros Hx. apply Qc_is_canon. cbn [this Q2Qc]. by rewrite Qred_correct.
Qed.

Lemma key_of_number (v : cell) (x : Q) :
  number_of v = Some x -> key_of v = KNumber (Q2Qc x).
Proof.
  destruct v as [|n|q|b|s]; intros [= <-]; cbn [key_of]; try done.
  f_equal. symmetry. by apply Q2Qc_eq_Qc.
Qed.

Lemma key_of_not_number (v : cell) :
  number_of v = None -> key_of v = KMissing ∨ exists s, key_of v = KText s.
Proof. destruct v; intros [=]; cbn; eauto. Qed.

(** The values the specification calls equal are those the library's
    tables do not tell apart. *)
Lemma equal_values_key (a b : cell) : equal_values a b = true <-> key_of a = key_of b.
Proof.
  assert (forall x y : Q, Qeq_bool x y = true <-> KNumber (Q2Qc x) = KNumber (Q2Qc y)) as Hnum.
  { intros x y. rewrite Qeq_bool_iff, <- Q2Qc_eq_iff. split; congruence. }
  destruct (number_of a) as [x|] eqn:Ea, (number_of b) as [y|] eqn:Eb.
  - rewrite (key_of_number a x Ea), (key_of_number b y Eb), <- Hnum.
    destruct a, b; simplify_eq/=; done.
  - rewrite (key_of_number a x Ea).
    destruct (key_of_not_number b Eb) as [->|[s ->]];
      destruct a, b; simplify_eq/=; done.
  - rewrite (key_of_number b y Eb).
    destruct (key_of_not_number a Ea) as [->|[s ->]];
      destruct a, b; simplify_eq/=; done.
  - destruct a, b; simplify_eq/=; try done.
    rewrite bool_decide_eq_true. naive_solver.
Qed.




Lemma count_repeated_rows_le df : (count_repeated_rows df <= len df)%nat.
Proof.
  unfold count_repeated_rows.
  pose proof (sublist_length _ _ (list_filter_sublist (repeats_earlier_row df) (seq 0 (len df)))) as Hl.
  by rewrite length_seq in Hl.
Qed.

(** ** [basic_audit] *)

Lemma length_getitem (df : DataFrame) (l : label) :
  length (getitem df l) = occurrences l (columns df).
Proof.
  unfold getitem, occurrences, columns.
  induction df as [|c df IH]; [done|]. cbn [map List.filter].
  destruct (bool_decide (name c = l)); cbn [length]; by rewrite IH.
Qed.

Lemma occurrences_elem_of (df : DataFrame) (l : label) :
  l ∈ columns df <-> (1 <= occurrences l (columns df))%nat.
Proof.
  unfold occurrences. induction (columns df) as [|c cs IH].
  - cbn. split; [by intros ?%elem_of_nil|lia].
  - rewrite elem_of_cons, IH. cbn [List.filter].
    case_bool_decide; cbn [length]; [|naive_solver]. split; [lia|auto].
Qed.


(** Under a label that names at most one column the call returns, and
    these are the fields it returns. *)
Lemma basic_audit_returns `{Runtime} df label_col k :
  (occurrences label_col (columns df) <= 1)%nat ->
  exists r, basic_audit df label_col k = Ok r
    ∧ shape r = (len df, length df)
    ∧ n_duplicates r = Z.of_nat (count_true (df_duplicated df))
    ∧ duplicate_rate r =
        (if Nat.eqb (len df) 0 then 0
         else inject_Z (n_duplicates r) / inject_Z (Z.of_nat (len df)))%Q
    ∧ missing_top r = pd_head k (sort_values_desc (times_100 (isna_mean df)))
    ∧ memory_mb r = (inject_Z (Z.of_N (memory_usage_deep df)) / inject_Z (1024 ^ 2))%Q
    ∧ object_columns r = columns (select_dtypes [object] df)
    ∧ label_counts r =
        match getitem df label_col with
        | [s] => Some (value_counts (values s))
        | _ => None
        end.
Proof.
  intros Hone.
  assert (exists oc, (if bool_decide (label_col ∈ columns df)
                      then rbind (label_value_counts df label_col)
                                 (fun counts => Ok (Some counts))
                      else Ok None) = Ok oc
                     ∧ oc = match getitem df label_col with
                            | [s] => Some (value_counts (values s))
                            | _ => None
                            end) as (oc & Hoc & ->).
  { unfold label_value_counts.
    pose proof (length_getitem df label_col) as Hlen.
    pose proof (occurrences_elem_of df label_col) as Hin.
    case_bool_decide as E.
    - apply Hin in E.
      destruct (getitem df label_col) as [|s [|s' rest]]; cbn [length] in Hlen; cbn;
        [lia|eauto|lia].
    - destruct (getitem df label_col) as [|s rest]; cbn [length] in Hlen; cbn; [eauto|].
      exfalso. apply E, Hin. lia. }
  unfold basic_audit, py_truediv. rewrite Hoc.
  destruct (Nat.eqb_spec (len df) 0) as [E|E]; simpl.
  - eexists. split; [reflexivity|]. by simpl.
  - destruct (Z.eqb_spec (Z.of_nat (len df)) 0) as [E0|E0]; [lia|]. simpl.
    eexists. split; [reflexivity|]. by simpl.
Qed.

(** Under a label that names two columns or more the call raises the
    library's [ValueError]. *)
Lemma basic_audit_raises `{Runtime} df label_col k :
  (1 < occurrences label_col (columns df))%nat ->
  basic_audit df label_col k = Raise ValueError.
Proof.
  intros Htwo.
  assert ((if bool_decide (label_col ∈ columns df)
           then rbind (label_value_counts df label_col)
                      (fun counts => Ok (Some counts))
           else Ok None) = Raise ValueError) as Hoc.
  { unfold label_value_counts.
    pose proof (length_getitem df label_col) as Hlen.
    rewrite bool_decide_eq_true_2 by (apply occurrences_elem_of; lia).
    destruct (getitem df label_col) as [|s [|s' rest]]; cbn [length] in Hlen; cbn;
      [lia|lia|done]. }
  unfold basic_audit, py_truediv. rewrite Hoc.
  destruct (Nat.eqb_spec (len df) 0) as [E|E]; simpl; [done|].
  by destruct (Z.eqb_spec (Z.of_nat (len df)) 0) as [E0|E0]; [lia|].
Qed.



(** ** Sorting *)



Section SortBy.
Context {A : Type} (leb : A -> A -> bool).
Hypothesis leb_total : forall a b, leb a b = true ∨ leb b a = true.
Hypothesis leb_trans : forall a b c, leb a b = true -> leb b c = true -> leb a c = true.

Lemma sort_by_perm l : sort_by leb l ≡ₚ l.
Proof. apply merge_sort_Permutation. Qed.

Lemma sort_by_sorted l :
  StronglySorted (fun a b => leb a b = true) (sort_by leb l).
Proof.
  assert (Total (fun a b => Is_true (leb a b))) as Htot.
  { intros a b. destruct (leb_total a b) as [->| ->]; [by left|by right]. }
  assert (Transitive (fun a b => Is_true (leb a b))) as Htr.
  { intros a b c ?%Is_true_true ?%Is_true_true. apply Is_true_true. eauto. }
  pose proof (StronglySorted_merge_sort (fun a b => Is_true (leb a b)) l) as Hs.
  unfold sort_by. induction Hs as [|a l' Hs IH Hall]; constructor; [done|].
  eapply Forall_impl; [exact Hall|]. intros b. apply Is_true_true.
Qed.
End SortBy.

Lemma slice_to_nonneg {A} (n : Z) (l : list A) :
  0 <= n -> slice_to n l = take (Z.to_nat n) l.
Proof. intros Hn. unfold slice_to. destruct (Z.leb_spec 0 n); [done|lia]. Qed.

Lemma count_true_isna vs : count_true (map isna vs) = length (List.filter isna vs).
Proof.
  induction vs as [|v vs IH]; [done|]. cbn [map List.filter].
  rewrite count_true_cons, IH. by destruct (isna v).
Qed.

(** The percentages the code ranks are those of the specification. *)
Lemma missing_percent_computed df :
  rectangular df ->
  times_100 (isna_mean df) = map (fun c => (name c, missing_percent df c)) df.
Proof.
  unfold rectangular, times_100, isna_mean, missing_percent.
  remember (len df) as n eqn:Hn. clear Hn. intros Hrect.
  induction Hrect as [|c l Hc Hrect IH]; [done|]. cbn [map]. rewrite IH. f_equal.
  unfold null_count, bool_mean. cbn [fst snd]. f_equal.
  destruct (values c) as [|v vs] eqn:E; simpl in Hc; subst n; [done|].
  cbn [map Nat.eqb option_map]. rewrite <- (count_true_isna (v :: vs)).
  cbn [map length]. by rewrite length_map.
Qed.



(** ** [numeric_summary] *)

Lemma rectangular_elem df c : rectangular df -> c ∈ df -> length (values c) = len df.
Proof. unfold rectangular. rewrite Forall_forall. auto. Qed.

Lemma elem_of_select_dtypes kinds df c :
  c ∈ select_dtypes kinds df <-> c ∈ df ∧ dtype_of c ∈ kinds.
Proof.
  unfold select_dtypes. rewrite elem_of_list_filter_bool.
  by rewrite bool_decide_eq_true.
Qed.

(** [num_df.empty] holds when there is no numeric column or no row. *)
Lemma empty_select_dtypes kinds df :
  rectangular df ->
  empty (select_dtypes kinds df) = true <->
  select_dtypes kinds df = [] ∨ len df = 0%nat.
Proof.
  intros Hrect. destruct (select_dtypes kinds df) as [|c l] eqn:E; simpl.
  - split; auto.
  - assert (c ∈ df) as Hc.
    { apply (elem_of_select_dtypes kinds). rewrite E. left. }
    rewrite (rectangular_elem df c Hrect Hc), Nat.eqb_eq. naive_solver.
Qed.

(** C9 (amended).  [numeric_summary] keeps the numeric columns only.  It
    returns the empty table when there is no numeric column or the table has
    no row.  Otherwise it returns [head(max_cols)] of the table that has one
    row per numeric column, in column order, holding the statistics count,
    mean, std, min, 1%, 50%, 99% and max of that column: for
    [max_cols >= 0] its first [max_cols] rows.  A table with 30 numeric
    columns and at least one row gives exactly 25 rows under
    [max_cols = 25]. *)
Theorem numeric_summary_rows `{Runtime} (df : DataFrame) (max_cols : Z) :
  rectangular df ->
  let num_df := select_dtypes [int64; float64] df in
  (forall c, c ∈ num_df <-> c ∈ df ∧ (dtype_of c = int64 ∨ dtype_of c = float64))
  ∧ num_df `sublist_of` df
  ∧ (num_df = [] ∨ len df = 0%nat -> numeric_summary df max_cols = empty_table)
  ∧ (num_df <> [] -> len df <> 0%nat ->
       numeric_summary df max_cols =
         {| index := pd_head max_cols (columns num_df);
            stats := [Count; Mean; Std; Min; Percentile 1; Percentile 50;
                      Percentile 99; Max];
            body := pd_head max_cols
                      (map (fun c => map (fun s => statistic s (values c))
                              [Count; Mean; Std; Min; Percentile 1; Percentile 50;
                               Percentile 99; Max]) num_df) |}
       ∧ (0 <= max_cols ->
            index (numeric_summary df max_cols) = take (Z.to_nat max_cols) (columns num_df)
            ∧ Z.of_nat (length (index (numeric_summary df max_cols))) <= max_cols
            ∧ length (body (numeric_summary df max_cols))
              = length (index (numeric_summary df max_cols))))
  ∧ (length num_df = 30%nat -> len df <> 0%nat ->
       length (index (numeric_summary df 25)) = 25%nat
       ∧ length (body (numeric_summary df 25)) = 25%nat).
Proof.
  intros Hrect num_df.
  assert (forall k, num_df <> [] -> len df <> 0%nat ->
            numeric_summary df k = summary_head k (describe_T num_df)) as Hfull.
  { intros k Hne Hlen. unfold numeric_summary. fold num_df.
    destruct (empty num_df) eqn:E; [|done].
    apply (empty_select_dtypes _ _ Hrect) in E. naive_solver. }
  split_and!.
  - intros c. unfold num_df. rewrite elem_of_select_dtypes. set_solver.
  - apply list_filter_sublist.
  - intros Hempty%(empty_select_dtypes _ _ Hrect).
    unfold numeric_summary. by rewrite Hempty.
  - intros Hne Hlen. rewrite (Hfull _ Hne Hlen). split; [done|].
    intros Hk. cbn [summary_head index body describe_T]. unfold pd_head.
    rewrite !slice_to_nonneg by done. split_and!; [done| |].
    + rewrite length_take. lia.
    + unfold columns. by rewrite !length_take, !length_map.
  - intros H30 Hlen. rewrite Hfull; [|by intros E; rewrite E in H30|done].
    cbn [summary_head index body describe_T]. unfold pd_head, columns.
    rewrite !slice_to_nonneg by done.
    rewrite !length_take, !length_map, H30. done.
Qed.

Lemma numeric_summary_rows_witness :
  let df := thirty_numeric [VFloat 1; NA] in
  let num_df := select_dtypes [int64; float64] df in
  length num_df = 30%nat ∧ len df <> 0%nat
  ∧ length (index (@numeric_summary sample_runtime df 25)) = 25%nat
  ∧ length (body (@numeric_summary sample_runtime df 25)) = 25%nat.
Proof.
  assert (rectangular (thirty_numeric [VFloat 1; NA])) as Hrect
    by (apply Forall_forall; intros c (i & -> & _)%list_elem_of_fmap; reflexivity).
  pose proof (@numeric_summary_rows sample_runtime _ 25 Hrect) as (_ & _ & _ & _ & H30).
  split; [reflexivity|]. split; [discriminate|].
  apply H30; [reflexivity|discriminate].
Defined.

(** C9, as the specification words it, fails on a table that has 30 numeric
    columns and no row: the guard on [num_df.empty] returns the empty
    table, not 25 rows. *)
Lemma numeric_summary_thirty_columns_no_row :
  length (select_dtypes [int64; float64] (thirty_numeric [])) = 30%nat
  ∧ @numeric_summary sample_runtime (thirty_numeric []) 25 = empty_table
  ∧ length (index (@numeric_summary sample_runtime (thirty_numeric []) 25)) <> 25%nat.
Proof. split_and!; [reflexivity|reflexivity|discriminate]. Qed.

(** ** [clean_column_names] *)

Lemma set_name_columns (ls : list label) (df : DataFrame) :
  length ls = length df -> columns (zip_with set_name ls df) = ls.
Proof.
  revert df. induction ls as [|l ls IH]; intros [|c df] Hlen; simplify_eq/=; [done|].
  by rewrite IH.
Qed.

Lemma set_name_data {B} (f : Column -> B) (ls : list label) (df : DataFrame) :
  (forall l c, f (set_name l c) = f c) ->
  length ls = length df -> map f (zip_with set_name ls df) = map f df.
Proof.
  intros Hf. revert df.
  induction ls as [|l ls IH]; intros [|c df] Hlen; simplify_eq/=; [done|].
  by rewrite Hf, IH.
Qed.

Lemma set_name_same (df : DataFrame) : zip_with set_name (columns df) df = df.
Proof. induction df as [|[] df IH]; [done|]. simpl. by rewrite IH. Qed.

Lemma forallb_is_str_astype idx : forallb is_str (astype_str idx) = true.
Proof. by induction idx. Qed.

Lemma forallb_is_str_map (f : label -> str) idx :
  forallb is_str (map (fun c => LStr (f c)) idx) = true.
Proof. by induction idx. Qed.

(** The names the three calls on the index produce. *)
Lemma cleaned_index idx :
  rbind (str_accessor (replace BOM []) (astype_str idx)) (str_accessor strip)
  = Ok (map clean_label idx).
Proof.
  unfold str_accessor at 1. rewrite forallb_is_str_astype. cbn [rbind].
  unfold str_accessor. rewrite forallb_is_str_map. f_equal.
  unfold astype_str. rewrite !map_map. apply map_ext. intros c.
  cbn [py_str]. unfold clean_label. by rewrite replace_remove.
Qed.

Lemma clean_label_idem c : clean_label (clean_label c) = clean_label c.
Proof.
  unfold clean_label. cbn [py_str]. f_equal.
  rewrite <- !replace_remove.
  rewrite (replace_absent BOM (strip _)); [apply strip_idem|].
  intros ?%strip_elem. by eapply replace_gone.
Qed.

(** The whole call: a copy is stored at a new reference and renamed. *)
Lemma clean_column_names_run (σ : store) (r : ref) (df : DataFrame) :
  σ !! r = Some df ->
  clean_column_names r σ =
    Returns (Ok (fresh (dom σ)))
            (<[fresh (dom σ) := zip_with set_name (map clean_label (columns df)) df]> σ).
Proof.
  intros Hr. unfold clean_column_names, df_copy, get_columns, set_columns.
  unfold mbind, M_bind, mret, M_ret, read, alloc, write, lift. rewrite Hr.
  rewrite lookup_insert_eq.
  pose proof (cleaned_index (columns df)) as Hidx.
  destruct (str_accessor (replace BOM []) (astype_str (columns df))) as [i1|]; [|done].
  cbn [rbind] in Hidx. rewrite Hidx, lookup_insert_eq.
  unfold assign_columns. unfold columns at 1. rewrite !length_map, Nat.eqb_refl.
  by rewrite insert_insert_eq.
Qed.

Lemma fresh_ref_ne (σ : store) (r : ref) (df : DataFrame) :
  σ !! r = Some df -> fresh (dom σ) <> r.
Proof.
  intros Hr E. apply (is_fresh (dom σ)). rewrite E. apply elem_of_dom. by exists df.
Qed.

Lemma fresh_ref_unused (σ : store) : σ !! fresh (dom σ) = None.
Proof. apply not_elem_of_dom, is_fresh. Qed.

(** C3.  [clean_column_names] returns, for every table and whatever its
    labels are, a new table; it does not raise.  The names of the new table
    are the names of the input turned into text by [str], with every
    occurrence of U+FEFF removed and then stripped of leading and trailing
    whitespace; types and values are those of the input.  So every new name
    is a text without U+FEFF that neither starts nor ends with
    whitespace. *)
Theorem clean_column_names_labels (σ : store) (r : ref) (df : DataFrame) :
  σ !! r = Some df ->
  exists r' σ' df',
    clean_column_names r σ = Returns (Ok r') σ'
    ∧ σ !! r' = None
    ∧ σ' !! r' = Some df'
    ∧ columns df' =
        map (fun c => LStr (strip (List.filter (fun x => negb (x =? BOM)%N) (py_str c))))
            (columns df)
    ∧ map dtype_of df' = map dtype_of df
    ∧ map values df' = map values df
    ∧ Forall (fun c => exists s, c = LStr s
                ∧ (BOM ∉ s)
                ∧ (forall a t, s = a :: t -> isspace a = false)
                ∧ (forall a t, s = t ++ [a] -> isspace a = false)) (columns df').
Proof.
  intros Hr. eexists _, _, _. split; [by apply clean_column_names_run|].
  assert (length (map clean_label (columns df)) = length df) as Hlen
    by (unfold columns; by rewrite !length_map).
  split_and!.
  - apply fresh_ref_unused.
  - apply lookup_insert_eq.
  - by rewrite set_name_columns.
  - by apply set_name_data.
  - by apply set_name_data.
  - rewrite set_name_columns by done. apply Forall_forall.
    intros c (c0 & -> & _)%list_elem_of_fmap. eexists. split; [reflexivity|].
    split_and!.
    + intros ?%strip_elem%list_elem_of_In%filter_In. naive_solver.
    + intros a t. apply strip_first.
    + intros a t. apply strip_last.
Qed.

Lemma clean_column_names_labels_witness :
  exists r' σ' df',
    clean_column_names 0%nat {[ 0%nat := mixed_table ]} = Returns (Ok r') σ'
    ∧ ({[ 0%nat := mixed_table ]} : store) !! r' = None
    ∧ σ' !! r' = Some df'
    ∧ columns df' =
        map (fun c => LStr (strip (List.filter (fun x => negb (x =? BOM)%N) (py_str c))))
            (columns mixed_table)
    ∧ map dtype_of df' = map dtype_of mixed_table
    ∧ map values df' = map values mixed_table
    ∧ Forall (fun c => exists s, c = LStr s
                ∧ (BOM ∉ s)
                ∧ (forall a t, s = a :: t -> isspace a = false)
                ∧ (forall a t, s = t ++ [a] -> isspace a = false)) (columns df').
Proof.
  apply (clean_column_names_labels {[ 0%nat := mixed_table ]} 0%nat mixed_table).
  apply lookup_singleton_eq.
Defined.

(** C4.  [clean_column_names] leaves the table it is given, and every other
    stored table, as it was: the result is another object.  Cleaning the
    result once more gives a table equal to the result. *)
Theorem clean_column_names_idempotent (σ : store) (r : ref) (df : DataFrame) :
  σ !! r = Some df ->
  exists r1 σ1 df1,
    clean_column_names r σ = Returns (Ok r1) σ1
    ∧ r1 <> r
    ∧ σ1 !! r = Some df
    ∧ (forall q, q <> r1 -> σ1 !! q = σ !! q)
    ∧ σ1 !! r1 = Some df1
    ∧ exists r2 σ2,
        clean_column_names r1 σ1 = Returns (Ok r2) σ2
        ∧ σ2 !! r2 = Some df1
        ∧ σ2 !! r1 = Some df1
        ∧ σ2 !! r = Some df.
Proof.
  intros Hr.
  set (r1 := fresh (dom σ)).
  set (df1 := zip_with set_name (map clean_label (columns df)) df).
  set (σ1 := <[r1 := df1]> σ).
  assert (r1 <> r) as Hne by (by eapply fresh_ref_ne).
  assert (σ1 !! r1 = Some df1) as H1 by apply lookup_insert_eq.
  assert (σ1 !! r = Some df) as Hr1 by (unfold σ1; by rewrite lookup_insert_ne).
  assert (length (map clean_label (columns df)) = length df) as Hlen
    by (unfold columns; by rewrite !length_map).
  assert (zip_with set_name (map clean_label (columns df1)) df1 = df1) as Hidem.
  { assert (columns df1 = map clean_label (columns df)) as Hc
      by (by apply set_name_columns).
    rewrite <- (set_name_same df1) at 3. f_equal.
    rewrite Hc, map_map. apply map_ext. intros c. apply clean_label_idem. }
  exists r1, σ1, df1. split_and!; try done.
  - by apply clean_column_names_run.
  - intros q Hq. unfold σ1. by rewrite lookup_insert_ne.
  - exists (fresh (dom σ1)), (<[fresh (dom σ1) := df1]> σ1). split_and!.
    + rewrite (clean_column_names_run σ1 r1 df1 H1). by rewrite Hidem.
    + apply lookup_insert_eq.
    + rewrite lookup_insert_ne; [done|by eapply fresh_ref_ne].
    + rewrite lookup_insert_ne; [done|by eapply fresh_ref_ne].
Qed.

Lemma clean_column_names_idempotent_witness :
  exists r1 σ1 df1,
    clean_column_names 0%nat {[ 0%nat := mixed_table ]} = Returns (Ok r1) σ1
    ∧ r1 <> 0%nat
    ∧ σ1 !! 0%nat = Some mixed_table
    ∧ (forall q, q <> r1 -> σ1 !! q = ({[ 0%nat := mixed_table ]} : store) !! q)
    ∧ σ1 !! r1 = Some df1
    ∧ exists r2 σ2,
        clean_column_names r1 σ1 = Returns (Ok r2) σ2
        ∧ σ2 !! r2 = Some df1
        ∧ σ2 !! r1 = Some df1
        ∧ σ2 !! 0%nat = Some mixed_table.
Proof.
  apply (clean_column_names_idempotent {[ 0%nat := mixed_table ]} 0%nat mixed_table).
  apply lookup_singleton_eq.
Defined.

(** ** Ordering of strings and paths *)

Section LexCompare.
Context {A : Type} (cmp : A -> A -> comparison).
Hypothesis cmp_eq : forall a b, cmp a b = Eq <-> a = b.
Hypothesis cmp_opp : forall a b, cmp b a = CompOpp (cmp a b).
Hypothesis cmp_lt_trans : forall a b c, cmp a b = Lt -> cmp b c = Lt -> cmp a c = Lt.

Lemma lex_compare_eq s t : lex_compare cmp s t = Eq <-> s = t.
Proof.
  revert t. induction s as [|a s IH]; intros [|b t]; simpl; try done.
  destruct (cmp a b) eqn:E.
  - apply cmp_eq in E as ->. rewrite IH. naive_solver.
  - split; [done|]. intros [= -> _]. assert (cmp b b = Eq) by by apply cmp_eq. congruence.
  - split; [done|]. intros [= -> _]. assert (cmp b b = Eq) by by apply cmp_eq. congruence.
Qed.

Lemma lex_compare_opp s t : lex_compare cmp t s = CompOpp (lex_compare cmp s t).
Proof.
  revert t. induction s as [|a s IH]; intros [|b t]; simpl; try done.
  rewrite (cmp_opp a b). destruct (cmp a b); simpl; auto.
Qed.

Lemma lex_compare_lt_trans s t u :
  lex_compare cmp s t = Lt -> lex_compare cmp t u = Lt -> lex_compare cmp s u = Lt.
Proof.
  revert t u. induction s as [|a s IH]; intros [|b t] [|c u]; simpl; try done.
  destruct (cmp a b) eqn:Eab; try done.
  - apply cmp_eq in Eab as ->. destruct (cmp b c); try done. apply IH.
  - intros _. destruct (cmp b c) eqn:Ebc; try done.
    + apply cmp_eq in Ebc as ->. by rewrite Eab.
    + by rewrite (cmp_lt_trans a b c).
Qed.
End LexCompare.

Lemma N_compare_opp (a b : N) : (b ?= a)%N = CompOpp (a ?= b)%N.
Proof. apply N.compare_antisym. Qed.

Lemma N_compare_lt_trans (a b c : N) :
  (a ?= b)%N = Lt -> (b ?= c)%N = Lt -> (a ?= c)%N = Lt.
Proof. rewrite !N.compare_lt_iff. lia. Qed.

Lemma str_compare_eq s t : Str.compare s t = Eq <-> s = t.
Proof. apply lex_compare_eq, N.compare_eq_iff. Qed.

Lemma str_compare_opp s t : Str.compare t s = CompOpp (Str.compare s t).
Proof. apply lex_compare_opp, N_compare_opp. Qed.

Lemma str_compare_lt_trans s t u :
  Str.compare s t = Lt -> Str.compare t u = Lt -> Str.compare s u = Lt.
Proof.
  apply lex_compare_lt_trans;
    first [apply N.compare_eq_iff|apply N_compare_lt_trans].
Qed.

Lemma path_compare_eq p q : path_compare p q = Eq <-> p = q.
Proof. apply lex_compare_eq, str_compare_eq. Qed.

Lemma path_compare_opp p q : path_compare q p = CompOpp (path_compare p q).
Proof. apply lex_compare_opp, str_compare_opp. Qed.

Lemma path_compare_lt_trans p q u :
  path_compare p q = Lt -> path_compare q u = Lt -> path_compare p u = Lt.
Proof.
  apply lex_compare_lt_trans;
    first [apply str_compare_eq|apply str_compare_lt_trans].
Qed.

Lemma path_leb_total p q : path_leb p q = true ∨ path_leb q p = true.
Proof.
  unfold path_leb. rewrite (path_compare_opp p q).
  destruct (path_compare p q); simpl; auto.
Qed.

Lemma path_leb_trans p q u :
  path_leb p q = true -> path_leb q u = true -> path_leb p u = true.
Proof.
  unfold path_leb.
  destruct (path_compare p q) eqn:E1; [| |done];
    destruct (path_compare q u) eqn:E2; try done; intros _ _.
  - apply path_compare_eq in E1 as ->. by rewrite E2.
  - apply path_compare_eq in E1 as ->. by rewrite E2.
  - apply path_compare_eq in E2 as <-. by rewrite E1.
  - by rewrite (path_compare_lt_trans p q u).
Qed.

(** Two paths of one directory compare as their names do. *)
Lemma path_compare_same_dir (dir : Path) (a b : str) :
  path_compare (dir ++ [a]) (dir ++ [b]) = Str.compare a b.
Proof.
  unfold path_compare. induction dir as [|d dir IH]; simpl.
  - by destruct (Str.compare a b).
  - assert (Str.compare d d = Eq) as -> by by apply str_compare_eq. exact IH.
Qed.

Lemma sorted_perm l : sorted l ≡ₚ l.
Proof. apply sort_by_perm. Qed.

Lemma sorted_sorted l : StronglySorted (fun p q => path_leb p q = true) (sorted l).
Proof. apply sort_by_sorted; [apply path_leb_total|apply path_leb_trans]. Qed.

Lemma sorted_nil_inv l : sorted l = [] -> l = [].
Proof. intros E. apply Permutation_nil_r. by rewrite <- (sorted_perm l), E. Qed.

(** ** The file system *)

Lemma path_name_snoc (dir : Path) (name : str) : path_name (dir ++ [name]) = name.
Proof. unfold path_name. apply last_last. Qed.

Lemma glob_match_spec dir suffix p :
  glob_match dir suffix p = true <->
  exists name, p = dir ++ [name] ∧ endswith name suffix = true.
Proof.
  unfold glob_match. rewrite andb_true_iff, bool_decide_eq_true. split.
  - intros [Hp Hs]. eauto.
  - intros (name & -> & Hs). by rewrite path_name_snoc.
Qed.

(** The entries [glob] lists: the entries of the directory whose name ends
    with the suffix, each once. *)
Lemma elem_of_glob (fs : filesystem) dir suffix p :
  p ∈ glob fs dir suffix <->
  (exists n, fs !! dir = Some (Dir n))
  ∧ is_Some (fs !! p)
  ∧ exists name, p = dir ++ [name] ∧ endswith name suffix = true.
Proof.
  unfold glob. destruct (fs !! dir) as [[n|n c]|] eqn:E.
  - rewrite elem_of_list_filter_bool, glob_match_spec, list_elem_of_fmap.
    split.
    + intros [([q x] & -> & Hq%elem_of_map_to_list) Hm]. simpl in *. eauto.
    + intros (_ & [x Hx] & Hm). split; [|done].
      exists (p, x). split; [done|]. by apply elem_of_map_to_list.
  - split; [by intros ?%elem_of_nil|]. by intros ([? [=]] & _).
  - split; [by intros ?%elem_of_nil|]. by intros ([? [=]] & _).
Qed.

Lemma NoDup_list_filter {A} (p : A -> bool) (l : list A) : NoDup l -> NoDup (List.filter p l).
Proof. intros H. eapply sublist_NoDup; [exact H|apply list_filter_sublist]. Qed.

Lemma NoDup_glob (fs : filesystem) dir suffix : NoDup (glob fs dir suffix).
Proof.
  unfold glob. destruct (fs !! dir) as [[n|n c]|]; try apply NoDup_nil_2.
  apply NoDup_list_filter, NoDup_fst_map_to_list.
Qed.

Lemma glob_missing (fs : filesystem) dir suffix :
  exists_ fs dir = false -> glob fs dir suffix = [].
Proof.
  unfold exists_, glob. intros H%bool_decide_eq_false.
  destruct (fs !! dir); [|done]. destruct H. eauto.
Qed.

(** ** Rounding *)

Lemma round_half_even_near (y : Q) :
  (inject_Z (round_half_even y) - (1 # 2) <= y
   ∧ y <= inject_Z (round_half_even y) + (1 # 2))%Q.
Proof.
  unfold round_half_even.
  pose proof (Qfloor_le y) as Hlo. pose proof (Qlt_floor y) as Hhi.
  rewrite inject_Z_plus in Hhi. change (inject_Z 1) with 1%Q in Hhi.
  destruct (y - inject_Z (Qfloor y) ?= 1 # 2)%Q eqn:E.
  - apply Qeq_alt in E.
    destruct (Z.even (Qfloor y)); [|rewrite inject_Z_plus; change (inject_Z 1) with 1%Q];
      split; lra.
  - apply Qlt_alt in E. split; lra.
  - apply Qgt_alt in E. rewrite inject_Z_plus. change (inject_Z 1) with 1%Q. split; lra.
Qed.

(** [round(x, 2)] is a number of hundredths, at most half a hundredth away
    from [x]. *)
Lemma py_round_2 (x : Q) :
  exists h : Z, py_round x 2 = (inject_Z h / inject_Z 100)%Q
    ∧ (inject_Z h - (1 # 2) <= x * 100 ∧ x * 100 <= inject_Z h + (1 # 2))%Q.
Proof.
  exists (round_half_even (x * inject_Z 100)). split; [reflexivity|].
  apply (round_half_even_near (x * inject_Z 100)).
Qed.

(** ** [list_csv_files] *)

(** Equal tables up to the way a rational is written. *)
Ltac same_floats :=
  repeat match goal with
         | |- @eq Qc _ _ => apply Qc_is_canon; reflexivity
         | |- _ => progress f_equal
         end.

Lemma sorted_strict (l : list Path) :
  NoDup l ->
  StronglySorted (fun p q => path_leb p q = true) l ->
  StronglySorted (fun p q => path_compare p q = Lt) l.
Proof.
  intros Hnd Hs. induction Hs as [|a l Hs IH Hall]; constructor.
  - apply IH. by apply NoDup_cons in Hnd as [_ ?].
  - apply NoDup_cons in Hnd as [Ha _]. rewrite Forall_forall in Hall |- *.
    intros q Hq. specialize (Hall q Hq). unfold path_leb in Hall.
    destruct (path_compare a q) eqn:E; [|done|done].
    apply path_compare_eq in E as ->. done.
Qed.

Lemma sorted_names (dir : Path) (l : list Path) :
  (forall p, p ∈ l -> exists name, p = dir ++ [name]) ->
  StronglySorted (fun p q => path_compare p q = Lt) l ->
  StronglySorted (fun p q => Str.compare (path_name p) (path_name q) = Lt) l.
Proof.
  intros Hdir Hs. induction Hs as [|a l Hs IH Hall]; constructor.
  - apply IH. intros p Hp. apply Hdir. by right.
  - rewrite Forall_forall in Hall |- *. intros q Hq. specialize (Hall q Hq).
    destruct (Hdir a) as [na ->]; [left|].
    destruct (Hdir q) as [nq ->]; [by right|].
    by rewrite !path_name_snoc, <- (path_compare_same_dir dir).
Qed.

(** What the sorted listing of a directory holds. *)
Lemma sorted_glob (fs : filesystem) (dir : Path) (suffix : str) :
  let files := sorted (glob fs dir suffix) in
  (forall p, p ∈ files <->
     (exists n, fs !! dir = Some (Dir n))
     ∧ is_Some (fs !! p)
     ∧ exists name, p = dir ++ [name] ∧ endswith name suffix = true)
  ∧ NoDup files
  ∧ StronglySorted (fun p q => path_compare p q = Lt) files
  ∧ StronglySorted (fun p q => Str.compare (path_name p) (path_name q) = Lt) files.
Proof.
  intros files.
  assert (forall p, p ∈ files <-> p ∈ glob fs dir suffix) as Hin.
  { intros p. unfold files. by rewrite (sorted_perm (glob fs dir suffix)). }
  assert (NoDup files) as Hnd.
  { unfold files. rewrite (sorted_perm (glob fs dir suffix)). apply NoDup_glob. }
  assert (StronglySorted (fun p q => path_compare p q = Lt) files) as Hs
    by (apply sorted_strict; [done|apply sorted_sorted]).
  split_and!; [|done|done|].
  - intros p. rewrite Hin. apply elem_of_glob.
  - apply (sorted_names dir); [|done].
    intros p (_ & _ & name & -> & _)%Hin%elem_of_glob. eauto.
Qed.

(** C5 (amended).  [list_csv_files] raises [FileNotFoundError] when the
    directory does not exist and when it holds no entry whose name ends in
    ".csv".  Otherwise it returns the table of those entries of the directory
    (not of its subdirectories), sorted by path, with the name of each and
    its size, bytes / 1024², rounded to 2 decimals.  A row keeps the size of
    its own file: for "b.csv" of 1048576 bytes and "a.csv" of 2097152 bytes
    the rows are a.csv (2.0 MB) then b.csv (1.0 MB). *)
Theorem list_csv_files_listing (fs : filesystem) (dir : Path) :
  (exists_ fs dir = false ->
     list_csv_files fs dir = Raise (FileNotFoundError RawDirNotFound dir))
  ∧ (exists_ fs dir = true -> glob fs dir (lit ".csv") = [] ->
       list_csv_files fs dir = Raise (FileNotFoundError NoCsvFound dir))
  ∧ (exists_ fs dir = true -> glob fs dir (lit ".csv") <> [] ->
       exists files,
         list_csv_files fs dir =
           Ok [ {| name := LStr (lit "file"); dtype_of := object;
                   values := map (fun f => VStr (path_name f)) files |};
                {| name := LStr (lit "size_mb"); dtype_of := float64;
                   values := map (fun f => VFloat (Q2Qc (py_round
                               (inject_Z (Z.of_N (stat_size fs f)) / inject_Z (1024 ^ 2)) 2)))
                               files |} ]
         ∧ (forall p, p ∈ files <->
              is_Some (fs !! p)
              ∧ exists name, p = dir ++ [name] ∧ endswith name (lit ".csv") = true)
         ∧ NoDup files
         ∧ StronglySorted (fun p q => path_compare p q = Lt) files
         ∧ StronglySorted
             (fun p q => Str.compare (path_name p) (path_name q) = Lt) files)
  ∧ (forall x : Q, exists h : Z,
       py_round x 2 = (inject_Z h / inject_Z 100)%Q
       ∧ (inject_Z h - (1 # 2) <= x * 100 ∧ x * 100 <= inject_Z h + (1 # 2))%Q)
  ∧ list_csv_files data_fs data_dir =
      Ok [ {| name := LStr (lit "file"); dtype_of := object;
              values := [VStr (lit "a.csv"); VStr (lit "b.csv")] |};
           {| name := LStr (lit "size_mb"); dtype_of := float64;
              values := [VFloat (Q2Qc 2); VFloat (Q2Qc 1)] |} ].
Proof.
  split_and!.
  - intros He. unfold list_csv_files. by rewrite He.
  - intros He Hg. unfold list_csv_files. rewrite He, Hg. done.
  - intros He Hg. unfold list_csv_files. rewrite He. cbn [negb].
    destruct (sorted_glob fs dir (lit ".csv")) as (Hin & Hnd & Hs & Hn).
    destruct (sorted (glob fs dir (lit ".csv"))) as [|f files] eqn:E.
    { by apply sorted_nil_inv in E. }
    exists (f :: files). split_and!; [done| |done|done|done].
    intros p. rewrite Hin. split; [naive_solver|]. intros [Hp Hname].
    split; [|done].
    assert (f ∈ f :: files) as (Hd & _)%Hin by left. done.
  - apply py_round_2.
  - vm_compute. same_floats.
Qed.

Lemma list_csv_files_listing_witness :
  exists_ data_fs data_dir = true
  ∧ glob data_fs data_dir (lit ".csv") <> []
  ∧ exists files,
      list_csv_files data_fs data_dir =
        Ok [ {| name := LStr (lit "file"); dtype_of := object;
                values := map (fun f => VStr (path_name f)) files |};
             {| name := LStr (lit "size_mb"); dtype_of := float64;
                values := map (fun f => VFloat (Q2Qc (py_round
                            (inject_Z (Z.of_N (stat_size data_fs f)) / inject_Z (1024 ^ 2)) 2)))
                            files |} ]
      ∧ (forall p, p ∈ files <->
           is_Some (data_fs !! p)
           ∧ exists name, p = data_dir ++ [name] ∧ endswith name (lit ".csv") = true)
      ∧ NoDup files
      ∧ StronglySorted (fun p q => path_compare p q = Lt) files
      ∧ StronglySorted
          (fun p q => Str.compare (path_name p) (path_name q) = Lt) files.
Proof.
  assert (exists_ data_fs data_dir = true) as He by (by vm_compute).
  assert (glob data_fs data_dir (lit ".csv") <> []) as Hg by (by vm_compute).
  split; [exact He|]. split; [exact Hg|].
  exact (proj1 (proj2 (proj2 (list_csv_files_listing data_fs data_dir))) He Hg).
Defined.

(** C5, as the specification words it, fails on its own example: with
    "b.csv" of 1048576 bytes and "a.csv" of 2097152 bytes the row of a.csv
    holds 2.0 and the row of b.csv holds 1.0, not 1.0 and 2.0. *)
Lemma list_csv_files_sizes_follow_names :
  exists df, list_csv_files data_fs data_dir = Ok df
    ∧ stat_size data_fs (data_dir ++ [lit "b.csv"]) = 1048576%N
    ∧ stat_size data_fs (data_dir ++ [lit "a.csv"]) = 2097152%N
    ∧ map values df = [ [VStr (lit "a.csv"); VStr (lit "b.csv")];
                        [VFloat (Q2Qc 2); VFloat (Q2Qc 1)] ]
    ∧ map values df <> [ [VStr (lit "a.csv"); VStr (lit "b.csv")];
                         [VFloat (Q2Qc 1); VFloat (Q2Qc 2)] ].
Proof.
  eexists. split; [by vm_compute|].
  split; [by vm_compute|]. split; [by vm_compute|]. split.
  - cbn [map values]. same_floats.
  - cbn [map values]. intros E. simplify_eq.
Qed.

(** ** [pick_file] *)

Lemma path_leb_refl p : path_leb p p = true.
Proof.
  unfold path_leb. assert (path_compare p p = Eq) as -> by by apply path_compare_eq.
  done.
Qed.

(** The first path of the sorted listing is a listed path, and no listed
    path comes before it. *)
Lemma sorted_first (l : list Path) (first : Path) (rest : list Path) :
  sorted l = first :: rest ->
  first ∈ l ∧ forall q, q ∈ l -> path_leb first q = true.
Proof.
  intros E. pose proof (sorted_perm l) as Hp. pose proof (sorted_sorted l) as Hs.
  rewrite E in Hp, Hs. split.
  - rewrite <- Hp. left.
  - intros q. rewrite <- Hp. intros [->|Hq]%elem_of_cons; [apply path_leb_refl|].
    apply StronglySorted_inv in Hs as [_ Hall]. rewrite Forall_forall in Hall. auto.
Qed.

Lemma list_csv_files_raises (fs : filesystem) (dir : Path) :
  (exists e, list_csv_files fs dir = Raise e) <-> glob fs dir (lit ".csv") = [].
Proof.
  unfold list_csv_files. destruct (exists_ fs dir) eqn:He; cbn [negb].
  - destruct (sorted (glob fs dir (lit ".csv"))) as [|f l] eqn:E.
    + apply sorted_nil_inv in E. split; eauto.
    + split; [by intros [? [=]]|]. intros Hg. by rewrite Hg in E.
  - split; [|eauto]. intros _. by apply glob_missing.
Qed.

Lemma pick_file_raises (fs : filesystem) (dir : Path) (pref : option str) :
  (exists e, pick_file fs dir pref = Raise e) <-> glob fs dir (lit ".csv") = [].
Proof.
  unfold pick_file. destruct (sorted (glob fs dir (lit ".csv"))) as [|f l] eqn:E.
  - apply sorted_nil_inv in E. split; eauto.
  - split; [|intros Hg; by rewrite Hg in E].
    destruct pref as [[|c s]|]; [by intros [? [=]]| |by intros [? [=]]].
    destruct (exists_ fs (joinpath dir (c :: s))); by intros [? [=]].
Qed.

(** C6 (amended).  [pick_file] fails where [list_csv_files] fails, with
    [FileNotFoundError]: when the directory does not exist or holds no entry
    whose name ends in ".csv".  Otherwise, when [preferred_name] is a
    non-empty text and [dir / preferred_name] exists, it returns that path,
    whatever its name and whether or not it was listed; and when
    [preferred_name] is [None], is empty, or names nothing that exists, it
    returns the first listed CSV in the order of paths. *)
Theorem pick_file_choice (fs : filesystem) (dir : Path) (pref : option str) :
  (exists_ fs dir = false ∨ glob fs dir (lit ".csv") = [] ->
     pick_file fs dir pref = Raise (FileNotFoundError NoCsvFound dir))
  ∧ ((exists e, list_csv_files fs dir = Raise e) <->
     (exists e, pick_file fs dir pref = Raise e))
  ∧ (forall e, list_csv_files fs dir = Raise e ∨ pick_file fs dir pref = Raise e ->
       exists m, e = FileNotFoundError m dir)
  ∧ (glob fs dir (lit ".csv") <> [] ->
       exists first,
         first ∈ glob fs dir (lit ".csv")
         ∧ (forall q, q ∈ glob fs dir (lit ".csv") -> path_leb first q = true)
         ∧ (forall s, pref = Some s -> s <> [] ->
              exists_ fs (joinpath dir s) = true ->
              pick_file fs dir pref = Ok (joinpath dir s))
         ∧ (pref = None ∨ pref = Some []
            ∨ (exists s, pref = Some s ∧ exists_ fs (joinpath dir s) = false) ->
            pick_file fs dir pref = Ok first)).
Proof.
  split_and!.
  - intros H. assert (glob fs dir (lit ".csv") = []) as Hg.
    { destruct H as [H|H]; [by apply glob_missing|done]. }
    unfold pick_file. by rewrite Hg.
  - by rewrite list_csv_files_raises, pick_file_raises.
  - intros e [H|H].
    + unfold list_csv_files in H. destruct (exists_ fs dir); cbn [negb] in H.
      * destruct (sorted (glob fs dir (lit ".csv"))); simplify_eq. eauto.
      * simplify_eq. eauto.
    + unfold pick_file in H.
      destruct (sorted (glob fs dir (lit ".csv"))); [simplify_eq; eauto|].
      destruct pref as [[|c s]|]; [done| |done].
      by destruct (exists_ fs (joinpath dir (c :: s))).
  - intros Hg. unfold pick_file.
    destruct (sorted (glob fs dir (lit ".csv"))) as [|first rest] eqn:E.
    { by apply sorted_nil_inv in E. }
    destruct (sorted_first _ _ _ E) as [Hin Hmin].
    exists first. split_and!; [done|done| |].
    + intros [|c s] -> Hne Hex; [done|]. by rewrite Hex.
    + intros [->|[->|(s & -> & Hex)]]; [done|done|].
      destruct s; [done|]. by rewrite Hex.
Qed.

Lemma pick_file_choice_witness :
  glob data_fs data_dir (lit ".csv") <> []
  ∧ exists_ data_fs (joinpath data_dir (lit "notes.txt")) = true
  ∧ endswith (lit "notes.txt") (lit ".csv") = false
  ∧ pick_file data_fs data_dir (Some (lit "notes.txt"))
    = Ok (joinpath data_dir (lit "notes.txt")).
Proof.
  assert (glob data_fs data_dir (lit ".csv") <> []) as Hg by (by vm_compute).
  assert (exists_ data_fs (joinpath data_dir (lit "notes.txt")) = true) as He
    by (by vm_compute).
  split; [exact Hg|]. split; [exact He|]. split; [by vm_compute|].
  destruct (proj2 (proj2 (proj2
    (pick_file_choice data_fs data_dir (Some (lit "notes.txt"))))) Hg)
    as (first & _ & _ & Hpref & _).
  apply (Hpref (lit "notes.txt")); [reflexivity|discriminate|exact He].
Defined.

(** C6, as the specification words it, fails for the empty name: it is a
    given name, [dir] joined with it is [dir] and exists, and the call
    returns the first CSV, not [dir]. *)
Lemma pick_file_empty_name :
  joinpath data_dir [] = data_dir
  ∧ exists_ data_fs (joinpath data_dir []) = true
  ∧ pick_file data_fs data_dir (Some []) = Ok (data_dir ++ [lit "a.csv"])
  ∧ pick_file data_fs data_dir (Some []) <> Ok (joinpath data_dir []).
Proof. split_and!; [done|by vm_compute|by vm_compute|by vm_compute]. Qed.

(** ** Loading *)

Lemma columns_frame_of hd rs : columns (frame_of hd rs) = map LStr hd.
Proof.
  unfold columns, frame_of. apply list_eq. intros j.
  rewrite !list_lookup_fmap, list_lookup_imap. by destruct (hd !! j).
Qed.

Lemma length_frame_of hd rs : length (frame_of hd rs) = length hd.
Proof. apply length_imap. Qed.

Lemma len_frame_of hd rs : hd <> [] -> len (frame_of hd rs) = length rs.
Proof.
  destruct hd as [|h hd]; [done|]. intros _. unfold frame_of.
  rewrite imap_cons. cbn [len values]. apply length_map.
Qed.

Lemma row_frame_of hd rs i r :
  rs !! i = Some r -> length r = length hd -> row (frame_of hd rs) i = r.
Proof.
  intros Hr Hlen. apply list_eq. intros j. unfold row, frame_of.
  rewrite list_lookup_fmap, list_lookup_imap.
  destruct (hd !! j) as [h|] eqn:Hj; cbn [fmap option_fmap option_map values].
  - rewrite nth_lookup, list_lookup_fmap, Hr. cbn.
    apply lookup_lt_Some in Hj. rewrite <- Hlen in Hj.
    destruct (lookup_lt_is_Some_2 r j Hj) as [x Hx].
    by rewrite nth_lookup, Hx.
  - apply lookup_ge_None in Hj. symmetry. apply lookup_ge_None. lia.
Qed.

(** The rows of the frame are the rows read. *)
Lemma rows_frame_of hd rs :
  hd <> [] -> Forall (fun r => length r = length hd) rs ->
  rows (frame_of hd rs) = rs.
Proof.
  intros Hhd Hall. apply list_eq. intros i. unfold rows.
  rewrite list_lookup_fmap, (len_frame_of hd rs Hhd).
  destruct (rs !! i) as [r|] eqn:Hr.
  - rewrite lookup_seq_lt by (by eapply lookup_lt_Some). cbn. f_equal.
    apply row_frame_of; [done|]. rewrite Forall_forall in Hall.
    apply Hall. by eapply list_elem_of_lookup_2.
  - by rewrite lookup_seq_ge by (by apply lookup_ge_None).
Qed.

Lemma rectangular_frame_of hd rs : rectangular (frame_of hd rs).
Proof.
  destruct hd as [|h hd]; [constructor|].
  unfold rectangular. rewrite (len_frame_of (h :: hd) rs) by done.
  apply Forall_forall. intros c (j & Hj)%list_elem_of_lookup.
  unfold frame_of in Hj. rewrite list_lookup_imap in Hj.
  destruct ((h :: hd) !! j); simplify_eq/=. apply length_map.
Qed.

(** The rows of a frame depend on its values only. *)
Lemma rows_values df df' : map values df = map values df' -> rows df = rows df'.
Proof.
  intros E. assert (len df = len df') as Hlen.
  { destruct df, df'; simplify_eq/=; [done|]. congruence. }
  unfold rows. rewrite Hlen. apply map_ext. intros i. unfold row.
  rewrite <- (map_map values (fun vs => nth i vs NA) df).
  rewrite <- (map_map values (fun vs => nth i vs NA) df'). by rewrite E.
Qed.

Lemma len_values df df' : map values df = map values df' -> len df = len df'.
Proof. destruct df, df'; intros; simplify_eq/=; [done|congruence]. Qed.

Lemma forallb_lengths (rs : list (list cell)) n :
  Forall (fun r => length r = n) rs ->
  forallb (fun r => Nat.eqb (length r) n) rs = true.
Proof.
  intros H. apply forallb_forall. intros r Hr%list_elem_of_In.
  rewrite Forall_forall in H. apply Nat.eqb_eq. auto.
Qed.

Lemma forallb_is_str_LStr (hd : list str) : forallb is_str (map LStr hd) = true.
Proof. by induction hd. Qed.

(** A peek at a well-formed file. *)
Lemma load_peek_run (fs : filesystem) path nrows sz csv :
  fs !! path = Some (File sz (Some csv)) ->
  header csv <> [] ->
  Forall (fun r => length r = length (header csv)) (records csv) ->
  0 <= nrows ->
  load_peek fs path nrows =
    Ok (zip_with set_name (map (fun h => LStr (strip h)) (header csv))
          (frame_of (header csv) (take (Z.to_nat nrows) (records csv)))).
Proof.
  intros Hp Hhd Hall Hn. unfold load_peek, exists_, read_csv. rewrite Hp.
  rewrite bool_decide_eq_true_2 by eauto. cbn [negb].
  destruct (header csv) as [|h hd] eqn:Eh; [done|].
  destruct (Z.ltb_spec nrows 0) as [|_]; [lia|]. cbn [rbind].
  rewrite forallb_lengths by (by apply Forall_take). cbn [rbind].
  rewrite columns_frame_of. unfold str_accessor.
  rewrite forallb_is_str_LStr, map_map. cbn [rbind py_str].
  unfold assign_columns. by rewrite length_map, length_frame_of, Nat.eqb_refl.
Qed.

(** C7.  [load_peek] raises [FileNotFoundError] when the path does not
    exist.  On a file the reader accepts, and for [nrows >= 0], it returns
    the table of the first [nrows] data rows of the file (all of them when
    the file has fewer), under the column names of the header stripped of
    leading and trailing whitespace.  With [nrows = 10] and 1000 data rows
    the table has exactly 10 rows. *)
Theorem load_peek_rows (fs : filesystem) (path : Path) (nrows : Z) :
  (exists_ fs path = false ->
     load_peek fs path nrows = Raise (FileNotFoundError CsvNotFound path))
  ∧ (forall sz csv,
       fs !! path = Some (File sz (Some csv)) ->
       header csv <> [] ->
       Forall (fun r => length r = length (header csv)) (records csv) ->
       0 <= nrows ->
       exists df,
         load_peek fs path nrows = Ok df
         ∧ rows df = take (Z.to_nat nrows) (records csv)
         ∧ Z.of_nat (len df) = Z.min nrows (Z.of_nat (length (records csv)))
         ∧ Z.of_nat (len df) <= nrows
         ∧ columns df = map (fun h => LStr (strip h)) (header csv)
         ∧ rectangular df
         ∧ (length (records csv) = 1000%nat -> nrows = 10 -> len df = 10%nat)).
Proof.
  split.
  - intros He. unfold load_peek. by rewrite He.
  - intros sz csv Hp Hhd Hall Hn.
    set (rs := take (Z.to_nat nrows) (records csv)).
    set (df0 := frame_of (header csv) rs).
    set (ls := map (fun h => LStr (strip h)) (header csv)).
    assert (length ls = length df0) as Hlen
      by (unfold ls, df0; by rewrite length_map, length_frame_of).
    assert (map values (zip_with set_name ls df0) = map values df0) as Hv
      by (by apply set_name_data).
    assert (len (zip_with set_name ls df0) = length rs) as Hl.
    { rewrite (len_values _ _ Hv). by apply len_frame_of. }
    assert (length rs = Nat.min (Z.to_nat nrows) (length (records csv))) as Hrs
      by apply length_take.
    exists (zip_with set_name ls df0). split_and!.
    + by apply (load_peek_run fs path nrows sz csv).
    + rewrite (rows_values _ _ Hv). apply rows_frame_of; [done|].
      by apply Forall_take.
    + rewrite Hl, Hrs. lia.
    + rewrite Hl, Hrs. lia.
    + by apply set_name_columns.
    + unfold rectangular. rewrite Hl.
      pose proof (rectangular_frame_of (header csv) rs) as Hr.
      unfold rectangular in Hr. rewrite (len_frame_of _ _ Hhd) in Hr. fold df0 in Hr.
      apply Forall_forall. intros c Hc.
      assert (values c ∈ map values df0) as (c0 & -> & Hc0)%list_elem_of_fmap.
      { rewrite <- Hv. apply list_elem_of_fmap. eauto. }
      rewrite Forall_forall in Hr. auto.
    + intros H1000 ->. rewrite Hl, Hrs, H1000. done.
Qed.

Lemma load_peek_rows_witness :
  exists df,
    load_peek long_fs long_path 10 = Ok df
    ∧ length (records long_csv) = 1000%nat
    ∧ len df = 10%nat
    ∧ columns df = [LStr (lit "Flow ID"); LStr (lit "Label")]
    ∧ rows df = take 10 (records long_csv).
Proof.
  assert (long_fs !! long_path = Some (File 20000 (Some long_csv))) as Hp
    by apply lookup_insert_eq.
  assert (header long_csv <> []) as Hhd by discriminate.
  assert (Forall (fun r => length r = length (header long_csv)) (records long_csv)) as Hall
    by (apply Forall_forall; intros r (i & -> & _)%list_elem_of_fmap; reflexivity).
  assert (0 <= 10) as Hn by discriminate.
  destruct (proj2 (load_peek_rows long_fs long_path 10) 20000%N long_csv Hp Hhd Hall Hn)
    as (df & Hdf & Hrows & _ & _ & Hcols & _ & H10).
  exists df. split; [exact Hdf|]. split; [reflexivity|]. split; [by apply H10|].
  split; [exact Hcols|exact Hrows].
Defined.

(** X1.  [load_full] raises [FileNotFoundError] when the path does not
    exist; on a file the reader accepts it returns all data rows under the
    stripped column names: what [load_peek] returns when [nrows] is the
    number of data rows. *)
Theorem load_full_rows (fs : filesystem) (path : Path) :
  (exists_ fs path = false ->
     load_full fs path = Raise (FileNotFoundError CsvNotFound path))
  ∧ (forall sz csv,
       fs !! path = Some (File sz (Some csv)) ->
       header csv <> [] ->
       Forall (fun r => length r = length (header csv)) (records csv) ->
       exists df,
         load_full fs path = Ok df
         ∧ rows df = records csv
         ∧ columns df = map (fun h => LStr (strip h)) (header csv)
         ∧ load_peek fs path (Z.of_nat (length (records csv))) = Ok df).
Proof.
  split.
  - intros He. unfold load_full. by rewrite He.
  - intros sz csv Hp Hhd Hall.
    set (ls := map (fun h => LStr (strip h)) (header csv)).
    set (df0 := frame_of (header csv) (records csv)).
    assert (length ls = length df0) as Hlen
      by (unfold ls, df0; by rewrite length_map, length_frame_of).
    assert (load_full fs path = Ok (zip_with set_name ls df0)) as Hfull.
    { unfold load_full, exists_, read_csv. rewrite Hp.
      rewrite bool_decide_eq_true_2 by eauto. cbn [negb].
      destruct (header csv) as [|h hd] eqn:Eh; [done|]. cbn [rbind].
      rewrite forallb_lengths by done. cbn [rbind].
      rewrite columns_frame_of. unfold str_accessor.
      rewrite forallb_is_str_LStr, map_map. cbn [rbind py_str].
      unfold assign_columns.
      by rewrite length_map, length_frame_of, Nat.eqb_refl. }
    exists (zip_with set_name ls df0). split_and!; [done| | |].
    + rewrite (rows_values _ df0) by (by apply set_name_data).
      by apply rows_frame_of.
    + by apply set_name_columns.
    + rewrite (load_peek_run fs path _ sz csv Hp Hhd Hall) by lia.
      by rewrite Nat2Z.id, firstn_all.
Qed.

Lemma load_full_rows_witness :
  exists df,
    load_full data_fs (data_dir ++ [lit "b.csv"]) = Ok df
    ∧ rows df = records small_csv
    ∧ columns df = [LStr (lit "Flow ID"); LStr (lit "Label")].
Proof.
  assert (Forall (fun r => length r = length (header small_csv)) (records small_csv)) as Hall
    by (repeat constructor).
  destruct (proj2 (load_full_rows data_fs (data_dir ++ [lit "b.csv"]))
              1048576%N small_csv eq_refl ltac:(discriminate) Hall)
    as (df & Hdf & Hrows & Hcols & _).
  exists df. split; [exact Hdf|]. split; [exact Hrows|exact Hcols].
Defined.

Lemma select_one_dtype (t : dtype) (df : DataFrame) :
  select_dtypes [t] df = List.filter (fun c => bool_decide (dtype_of c = t)) df.
Proof.
  unfold select_dtypes. induction df as [|c df IH]; [done|].
  cbn [List.filter]. rewrite IH.
  assert (bool_decide (dtype_of c ∈ [t]) = bool_decide (dtype_of c = t)) as ->
    by (apply bool_decide_ext; set_solver).
  done.
Qed.

(** X2.  When the audit returns and what else it returns.  [basic_audit]
    returns exactly when [label_col] names at most one column; under a
    label that two or more columns carry it raises the library's
    [ValueError], and it raises nothing else.  When it returns, [shape] is
    the number of rows and of columns; [object_columns] lists, in column
    order, the names of the columns of type object; [label_counts] is
    present exactly when the label column is one of the columns. *)
Theorem basic_audit_fields `{Runtime} (df : DataFrame) (label_col : label) (k : Z) :
  ((occurrences label_col (columns df) <= 1)%nat ->
   exists r, basic_audit df label_col k = Ok r
     ∧ shape r = (len df, length df)
     ∧ object_columns r = map name (List.filter (fun c => bool_decide (dtype_of c = object)) df)
     ∧ memory_mb r = (inject_Z (Z.of_N (memory_usage_deep df)) / inject_Z 1048576)%Q
     ∧ (label_counts r = None <-> label_col ∉ columns df))
  ∧ ((1 < occurrences label_col (columns df))%nat ->
     basic_audit df label_col k = Raise ValueError)
  ∧ (forall e, basic_audit df label_col k = Raise e ->
       e = ValueError ∧ (1 < occurrences label_col (columns df))%nat).
Proof.
  split_and!.
  - intros Hone.
    destruct (basic_audit_returns df label_col k Hone)
      as (r & Hr & Hshape & _ & _ & _ & Hmem & Hobj & Hlab).
    exists r. split_and!; [done|done| |done|].
    + by rewrite Hobj, select_one_dtype.
    + rewrite Hlab. pose proof (length_getitem df label_col) as Hlen.
      rewrite occurrences_elem_of.
      destruct (getitem df label_col) as [|s [|s' rest]]; cbn [length] in Hlen.
      * split; [lia|done].
      * split; [done|lia].
      * lia.
  - apply basic_audit_raises.
  - intros e He.
    destruct (decide (occurrences label_col (columns df) <= 1)%nat) as [Hone|Htwo].
    + destruct (basic_audit_returns df label_col k Hone) as (r & Hr & _). congruence.
    + rewrite basic_audit_raises in He by lia. split; [congruence|lia].
Qed.

Lemma basic_audit_fields_witness :
  (exists r, @basic_audit sample_runtime twin_label_table (LStr (lit "Label")) 15 = Ok r
     ∧ shape r = (2%nat, 2%nat)
     ∧ exists counts, label_counts r = Some counts)
  ∧ @basic_audit sample_runtime padded_table padded_label 15 = Raise ValueError.
Proof.
  destruct (@basic_audit_fields sample_runtime twin_label_table (LStr (lit "Label")) 15)
    as (Hret & _).
  destruct (@basic_audit_fields sample_runtime padded_table padded_label 15)
    as (_ & Hraise & _).
  split.
  - destruct Hret as (r & Hr & Hshape & _ & _ & Hlab); [vm_compute; lia|].
    exists r. split; [exact Hr|]. split; [exact Hshape|].
    destruct (label_counts r) as [counts|]; [by exists counts|].
    exfalso. apply (proj1 Hlab eq_refl). by apply (bool_decide_unpack _); vm_compute.
  - apply Hraise. vm_compute. lia.
Defined.

(** X3.  When [list_csv_files] returns a listing, [pick_file] without a
    preferred name returns the file of its first row. *)
Theorem pick_file_first_listed (fs : filesystem) (dir : Path) (df : DataFrame) :
  list_csv_files fs dir = Ok df ->
  exists first names,
    pick_file fs dir None = Ok first
    ∧ first ∈ glob fs dir (lit ".csv")
    ∧ map values (take 1 df) = [VStr (path_name first) :: names].
Proof.
  unfold list_csv_files, pick_file. destruct (exists_ fs dir); [|done]. cbn [negb].
  destruct (sorted (glob fs dir (lit ".csv"))) as [|first rest] eqn:E; [done|].
  intros [= <-]. destruct (sorted_first _ _ _ E) as [Hin _].
  exists first, (map (fun f => VStr (path_name f)) rest). by split_and!.
Qed.

Lemma pick_file_first_listed_witness :
  exists df first names,
    list_csv_files data_fs data_dir = Ok df
    ∧ pick_file data_fs data_dir None = Ok first
    ∧ first ∈ glob data_fs data_dir (lit ".csv")
    ∧ map values (take 1 df) = [VStr (path_name first) :: names].
Proof.
  destruct (list_csv_files data_fs data_dir) as [df|e] eqn:E; [|by vm_compute in E].
  destruct (pick_file_first_listed data_fs data_dir df E) as (first & names & H).
  exists df, first, names. split; [reflexivity|exact H].
Defined.

(** ** Distinct rows *)

Section Distinct.
Context {A : Type} `{EqDecision A}.
Implicit Types (l seen : list A).

Lemma remove_dups_list_filter (p : A -> bool) l :
  remove_dups (List.filter p l) = List.filter p (remove_dups l).
Proof.
  induction l as [|a l IH]; [done|]. cbn [List.filter remove_dups].
  destruct (p a) eqn:Ha; cbn [remove_dups].
  - destruct (decide_rel (∈) a (List.filter p l)) as [Hin|Hin];
      destruct (decide_rel (∈) a l) as [Hl|Hl]; cbn [List.filter].
    + done.
    + apply elem_of_list_filter_bool in Hin as [? _]. done.
    + destruct Hin. by apply elem_of_list_filter_bool.
    + by rewrite Ha, IH.
  - destruct (decide_rel (∈) a l); cbn [List.filter]; [done|]. by rewrite Ha.
Qed.

Lemma length_filter_ne a l :
  NoDup l ->
  (length (List.filter (fun x => negb (bool_decide (x = a))) l)
   + (if decide (a ∈ l) then 1 else 0) = length l)%nat.
Proof.
  induction 1 as [|b l Hb Hnd IH]; [done|]. cbn [List.filter length].
  destruct (decide (b = a)) as [->|Hne].
  - rewrite bool_decide_eq_true_2 by done. cbn [negb].
    destruct (decide (a ∈ l)) as [|_]; [done|].
    destruct (decide (a ∈ a :: l)) as [_|Hn]; [lia|]. destruct Hn. left.
  - rewrite bool_decide_eq_false_2 by done. cbn [negb length].
    destruct (decide (a ∈ l)) as [Hin|Hin].
    + destruct (decide (a ∈ b :: l)) as [_|Hn]; [lia|]. destruct Hn. by right.
    + destruct (decide (a ∈ b :: l)) as [[E|Hin']%elem_of_cons|_]; [congruence|done|lia].
Qed.

(** The marked entries and the distinct new entries make up the list. *)
Lemma count_duplicated_from_distinct seen l :
  (count_true (duplicated_from seen l)
   + length (remove_dups (List.filter (fun x => negb (bool_decide (x ∈ seen))) l))
   = length l)%nat.
Proof.
  revert seen. induction l as [|a l IH]; intros seen; [done|].
  cbn [duplicated_from length]. rewrite count_true_cons.
  specialize (IH (a :: seen)).
  assert (List.filter (fun x => negb (bool_decide (x ∈ a :: seen))) l
          = List.filter (fun x => negb (bool_decide (x = a)))
              (List.filter (fun x => negb (bool_decide (x ∈ seen))) l)) as Hsplit.
  { clear IH. induction l as [|b l IHl]; [done|]. cbn [List.filter].
    destruct (decide (b ∈ seen)) as [Hs|Hs].
    - rewrite (bool_decide_eq_true_2 (b ∈ seen)) by done.
      rewrite (bool_decide_eq_true_2 (b ∈ a :: seen)) by (by right). done.
    - rewrite (bool_decide_eq_false_2 (b ∈ seen)) by done. cbn [negb List.filter].
      destruct (decide (b = a)) as [->|Hne].
      + rewrite (bool_decide_eq_true_2 (a ∈ a :: seen)) by left.
        rewrite (bool_decide_eq_true_2 (a = a)) by done. done.
      + rewrite (bool_decide_eq_false_2 (b ∈ a :: seen)) by set_solver.
        rewrite (bool_decide_eq_false_2 (b = a)) by done. cbn [negb]. by rewrite IHl. }
  rewrite Hsplit, remove_dups_list_filter in IH.
  set (m := List.filter (fun x => negb (bool_decide (x ∈ seen))) l) in *.
  pose proof (length_filter_ne a (remove_dups m) (NoDup_remove_dups m)) as Hne.
  cbn [List.filter]. fold m.
  destruct (decide (a ∈ seen)) as [Hs|Hs].
  - rewrite (bool_decide_eq_true_2 (a ∈ seen)) by done. cbn [negb].
    fold m. destruct (decide (a ∈ remove_dups m)) as [Hin|_]; [|lia].
    apply elem_of_remove_dups, elem_of_list_filter_bool in Hin as [_ Hin].
    by rewrite (bool_decide_eq_true_2 (a ∈ seen)) in Hin.
  - rewrite (bool_decide_eq_false_2 (a ∈ seen)) by done. cbn [negb remove_dups].
    destruct (decide_rel (∈) a m) as [Hin|Hin].
    + destruct (decide (a ∈ remove_dups m)) as [_|Hn]; [lia|].
      destruct Hn. by apply elem_of_remove_dups.
    + destruct (decide (a ∈ remove_dups m)) as [Hn|_].
      * destruct Hin. by apply elem_of_remove_dups.
      * cbn [length]. lia.
Qed.

Lemma count_duplicated_distinct l :
  (count_true (duplicated l) + length (remove_dups l) = length l)%nat.
Proof.
  pose proof (count_duplicated_from_distinct [] l) as H.
  assert (List.filter (fun x => negb (bool_decide (x ∈ []))) l = l) as E.
  { clear H. induction l as [|a l IH]; [done|]. cbn [List.filter].
    rewrite (bool_decide_eq_false_2 (a ∈ [])) by apply not_elem_of_nil.
    cbn [negb]. by rewrite IH. }
  by rewrite E in H.
Qed.
End Distinct.

Lemma row_keys_length df : length (row_keys df) = len df.
Proof. unfold row_keys. by rewrite length_map, rows_length. Qed.

(** X4.  [n_duplicates] is the number of rows less the number of distinct
    rows, two rows being the same when their values are equal in every
    column (as 1, 1.0 and [True] are equal).  The audit returns whenever
    [label_col] names at most one column. *)
Theorem basic_audit_distinct_rows `{Runtime} (df : DataFrame) (label_col : label) (k : Z) :
  (occurrences label_col (columns df) <= 1)%nat ->
  exists r, basic_audit df label_col k = Ok r
    ∧ n_duplicates r + Z.of_nat (length (remove_dups (row_keys df))) = Z.of_nat (len df)
    ∧ 0 <= n_duplicates r <= Z.of_nat (len df).
Proof.
  intros Hone.
  destruct (basic_audit_returns df label_col k Hone) as (r & Hr & _ & Hn & _).
  pose proof (count_duplicated_distinct (row_keys df)) as Hd. rewrite row_keys_length in Hd.
  exists r. split; [done|]. rewrite Hn. unfold df_duplicated. lia.
Qed.

Lemma basic_audit_distinct_rows_witness :
  exists r, @basic_audit sample_runtime loose_table (LStr (lit "Label")) 15 = Ok r
    ∧ len loose_table = 3%nat
    ∧ length (remove_dups (row_keys loose_table)) = 2%nat
    ∧ n_duplicates r = 1.
Proof.
  destruct (@basic_audit_distinct_rows sample_runtime loose_table (LStr (lit "Label")) 15)
    as (r & Hr & Hsum & _); [vm_compute; lia|].
  exists r. split; [exact Hr|]. split; [reflexivity|].
  assert (length (remove_dups (row_keys loose_table)) = 2%nat) as Hd by (by vm_compute).
  split; [exact Hd|]. rewrite Hd in Hsum. change (len loose_table) with 3%nat in Hsum. lia.
Defined.

(** ** Loading, then inspecting the names *)

(** The two statements after the read: the names are stripped and put back;
    the values stay. *)
Lemma strip_step (df0 df : DataFrame) :
  rbind (str_accessor strip (columns df0)) (fun cols => assign_columns cols df0) = Ok df ->
  columns df = map (fun c => LStr (strip (py_str c))) (columns df0)
  ∧ map values df = map values df0
  ∧ map dtype_of df = map dtype_of df0.
Proof.
  unfold str_accessor. destruct (forallb is_str (columns df0)); [|done].
  cbn [rbind]. unfold assign_columns.
  set (ls := map (fun c => LStr (strip (py_str c))) (columns df0)).
  assert (length ls = length df0) as Hlen
    by (unfold ls, columns; by rewrite !length_map).
  rewrite Hlen, Nat.eqb_refl. intros [= <-]. split_and!.
  - by apply set_name_columns.
  - by apply set_name_data.
  - by apply set_name_data.
Qed.

Lemma load_peek_inv (fs : filesystem) path nrows df :
  load_peek fs path nrows = Ok df ->
  exists_ fs path = true
  ∧ exists df0, read_csv fs path (Some nrows) = Ok df0
      ∧ rbind (str_accessor strip (columns df0)) (fun cols => assign_columns cols df0) = Ok df.
Proof.
  unfold load_peek. destruct (exists_ fs path); [|done]. cbn [negb].
  destruct (read_csv fs path (Some nrows)) as [df0|]; [|done]. cbn [rbind]. eauto.
Qed.

Lemma load_full_inv (fs : filesystem) path df :
  load_full fs path = Ok df ->
  exists_ fs path = true
  ∧ exists df0, read_csv fs path None = Ok df0
      ∧ rbind (str_accessor strip (columns df0)) (fun cols => assign_columns cols df0) = Ok df.
Proof.
  unfold load_full. destruct (exists_ fs path); [|done]. cbn [negb].
  destruct (read_csv fs path None) as [df0|]; [|done]. cbn [rbind]. eauto.
Qed.

Lemma whitespace_test_stripped (ls : list label) :
  List.filter whitespace_test (map (fun c => LStr (strip (py_str c))) ls) = [].
Proof.
  induction ls as [|c ls IH]; [done|]. cbn [map List.filter whitespace_test].
  rewrite strip_idem, bool_decide_eq_true_2 by done. exact IH.
Qed.

(** X5.  A table that [load_peek] or [load_full] returns has text column
    names without leading or trailing whitespace, so
    [find_suspicious_columns] reports no whitespace column on it. *)
Theorem loaded_names_stripped (fs : filesystem) (path : Path) (nrows : Z) (df : DataFrame) :
  load_peek fs path nrows = Ok df ∨ load_full fs path = Ok df ->
  whitespace_columns (find_suspicious_columns df) = []
  ∧ Forall (fun c => exists s, c = LStr s ∧ strip s = s) (columns df).
Proof.
  intros H.
  assert (exists df0, columns df = map (fun c => LStr (strip (py_str c))) (columns df0))
    as [df0 Hcols].
  { destruct H as [(_ & df0 & _ & Hs)%load_peek_inv|(_ & df0 & _ & Hs)%load_full_inv];
      exists df0; by apply strip_step in Hs as [? _]. }
  split.
  - cbn. rewrite Hcols. apply whitespace_test_stripped.
  - rewrite Hcols. apply Forall_forall. intros c (c0 & -> & _)%list_elem_of_fmap.
    eexists. split; [reflexivity|apply strip_idem].
Qed.

Lemma loaded_names_stripped_witness :
  exists df,
    load_peek data_fs (data_dir ++ [lit "b.csv"]) 2 = Ok df
    ∧ whitespace_columns (find_suspicious_columns df) = []
    ∧ Forall (fun c => exists s, c = LStr s ∧ strip s = s) (columns df).
Proof.
  destruct (load_peek data_fs (data_dir ++ [lit "b.csv"]) 2) as [df|e] eqn:E;
    [|by vm_compute in E].
  exists df. split; [reflexivity|].
  apply (loaded_names_stripped data_fs (data_dir ++ [lit "b.csv"]) 2 df). by left.
Defined.

(** What the reader returns has text labels. *)
Lemma read_csv_frame (fs : filesystem) path nrows df0 :
  read_csv fs path nrows = Ok df0 -> exists hd rs, df0 = frame_of hd rs.
Proof.
  unfold read_csv. destruct (fs !! path) as [[?|? [csv|]]|]; try done.
  destruct (header csv) as [|h hd]; [done|].
  destruct (match nrows with
            | Some n => if n <? 0 then Raise ValueError
                        else Ok (take (Z.to_nat n) (records csv))
            | None => Ok (records csv)
            end) as [rs|]; [|done].
  cbn [rbind]. destruct (forallb _ rs); [|done]. intros [= <-]. eauto.
Qed.

Lemma strip_step_frame hd rs :
  exists df, rbind (str_accessor strip (columns (frame_of hd rs)))
               (fun cols => assign_columns cols (frame_of hd rs)) = Ok df.
Proof.
  rewrite columns_frame_of. unfold str_accessor.
  rewrite forallb_is_str_LStr. cbn [rbind]. unfold assign_columns.
  rewrite !length_map, length_frame_of, Nat.eqb_refl. eauto.
Qed.

Lemma load_peek_raise_cases (fs : filesystem) (path : Path) (nrows : Z) (e : exn) :
  load_peek fs path nrows = Raise e <->
    (exists_ fs path = false ∧ e = FileNotFoundError CsvNotFound path)
    ∨ (exists_ fs path = true ∧ read_csv fs path (Some nrows) = Raise e).
Proof.
  unfold load_peek. destruct (exists_ fs path); cbn [negb].
  - destruct (read_csv fs path (Some nrows)) as [df0|e0] eqn:E; cbn [rbind].
    + apply read_csv_frame in E as (hd & rs & ->).
      destruct (strip_step_frame hd rs) as [df ->]. naive_solver.
    + naive_solver.
  - naive_solver.
Qed.

Lemma load_full_raise_cases (fs : filesystem) (path : Path) (e : exn) :
  load_full fs path = Raise e <->
    (exists_ fs path = false ∧ e = FileNotFoundError CsvNotFound path)
    ∨ (exists_ fs path = true ∧ read_csv fs path None = Raise e).
Proof.
  unfold load_full. destruct (exists_ fs path); cbn [negb].
  - destruct (read_csv fs path None) as [df0|e0] eqn:E; cbn [rbind].
    + apply read_csv_frame in E as (hd & rs & ->).
      destruct (strip_step_frame hd rs) as [df ->]. naive_solver.
    + naive_solver.
  - naive_solver.
Qed.

(** X6.  [load_peek] and [load_full] raise in two cases only: the path does
    not exist, with the module's [FileNotFoundError], or the reader raises,
    with the reader's exception unchanged.  Stripping and assigning the
    names never fails on what the reader returns. *)
Theorem load_raises (fs : filesystem) (path : Path) (nrows : Z) (e : exn) :
  (load_peek fs path nrows = Raise e <->
     (exists_ fs path = false ∧ e = FileNotFoundError CsvNotFound path)
     ∨ (exists_ fs path = true ∧ read_csv fs path (Some nrows) = Raise e))
  ∧ (load_full fs path = Raise e <->
       (exists_ fs path = false ∧ e = FileNotFoundError CsvNotFound path)
       ∨ (exists_ fs path = true ∧ read_csv fs path None = Raise e)).
Proof.
  split; [apply load_peek_raise_cases|apply load_full_raise_cases].
Qed.

(** ** Picking a file, then loading it *)

(** X7.  A path [pick_file] returns exists; without a usable preferred name
    it is an entry of the directory whose name ends in ".csv".  So
    [load_peek] and [load_full] never answer it with the module's
    [FileNotFoundError]. *)
Theorem pick_file_exists (fs : filesystem) (dir : Path) (pref : option str) (p : Path) :
  pick_file fs dir pref = Ok p ->
  exists_ fs p = true
  ∧ (p ∈ glob fs dir (lit ".csv")
     ∨ exists s, pref = Some s ∧ s <> [] ∧ p = joinpath dir s)
  ∧ (pref = None -> exists name, p = dir ++ [name] ∧ endswith name (lit ".csv") = true)
  ∧ (forall nrows, load_peek fs p nrows <> Raise (FileNotFoundError CsvNotFound p))
  ∧ load_full fs p <> Raise (FileNotFoundError CsvNotFound p).
Proof.
  intros Hp.
  assert (exists_ fs p = true
          ∧ (p ∈ glob fs dir (lit ".csv")
             ∨ exists s, pref = Some s ∧ s <> [] ∧ p = joinpath dir s)
          ∧ (pref = None -> p ∈ glob fs dir (lit ".csv"))) as (Hex & Hor & Hnone).
  { unfold pick_file in Hp.
    destruct (sorted (glob fs dir (lit ".csv"))) as [|first rest] eqn:E; [done|].
    destruct (sorted_first _ _ _ E) as [Hin _].
    assert (exists_ fs first = true) as Hfirst.
    { apply elem_of_glob in Hin as (_ & Hsome & _). by apply bool_decide_eq_true. }
    destruct pref as [[|c s]|]; simplify_eq; [by auto|..|by auto].
    destruct (exists_ fs (joinpath dir (c :: s))) eqn:Hc; simplify_eq.
    - split; [done|]. split; [right; by exists (c :: s)|done].
    - split; [done|]. split; [by left|done]. }
  split_and!; [done|done| | |].
  - intros (_ & _ & name & ? & ?)%Hnone%elem_of_glob. eauto.
  - intros nrows Hl. apply load_peek_raise_cases in Hl as [[Hn _]|[_ Hr]]; [congruence|].
    unfold read_csv in Hr. unfold exists_ in Hex.
    apply bool_decide_eq_true in Hex as [x Hx]. rewrite Hx in Hr.
    destruct x as [?|? [csv|]]; try done.
    destruct (header csv); [done|]. destruct (nrows <? 0); [done|].
    cbn [rbind] in Hr. by destruct (forallb _ _).
  - intros Hl. apply load_full_raise_cases in Hl as [[Hn _]|[_ Hr]]; [congruence|].
    unfold read_csv in Hr. unfold exists_ in Hex.
    apply bool_decide_eq_true in Hex as [x Hx]. rewrite Hx in Hr.
    destruct x as [?|? [csv|]]; try done.
    destruct (header csv); [done|]. cbn [rbind] in Hr. by destruct (forallb _ _).
Qed.

Lemma pick_file_exists_witness :
  exists p,
    pick_file data_fs data_dir (Some (lit "missing.csv")) = Ok p
    ∧ exists_ data_fs p = true
    ∧ p ∈ glob data_fs data_dir (lit ".csv").
Proof.
  destruct (pick_file data_fs data_dir (Some (lit "missing.csv"))) as [p|e] eqn:E;
    [|by vm_compute in E].
  destruct (pick_file_exists data_fs data_dir _ p E) as (Hex & Hor & _).
  exists p. split; [reflexivity|]. split; [exact Hex|].
  destruct Hor as [Hin|(s & Hs & _ & Hp)]; [exact Hin|].
  exfalso. injection Hs as <-. rewrite Hp in Hex. by vm_compute in Hex.
Defined.

(** ** Cleaning, then inspecting or auditing *)

Lemma letter_plain (c k : char) :
  lower_char c = k -> (97 <= k <= 122)%N -> isspace c = false ∧ c <> BOM.
Proof.
  unfold lower_char, isspace, BOM. intros Hk Hr.
  assert (65 <= c <= 122)%N as Hc.
  { destruct (N.leb_spec 65 c), (N.leb_spec c 90); cbn [andb] in Hk; lia. }
  split; [|lia].
  repeat match goal with
         | |- context [(?a <=? ?b)%N] => destruct (N.leb_spec a b)
         | |- context [(?a =? ?b)%N] => destruct (N.eqb_spec a b)
         end; cbn [andb orb]; first [reflexivity|lia].
Qed.

Lemma rstrip_cons_keep (c : char) (s : str) :
  isspace c = false -> rstrip (c :: s) = c :: rstrip s.
Proof. intros Hc. cbn [rstrip]. destruct (rstrip s); [by rewrite Hc|done]. Qed.

Lemma startswith_nil (s : str) : startswith s [] = true.
Proof. by destruct s. Qed.

(** A prefix of letters survives the cleaning of a name. *)
Lemma startswith_cleaned (s p : str) :
  Forall (fun k => 97 <= k <= 122)%N p ->
  startswith (lower s) p = true ->
  startswith (lower (strip (List.filter (fun x => negb (x =? BOM)%N) s))) p = true.
Proof.
  intros Hp Hs.
  assert (startswith (lower (rstrip (List.filter (fun x => negb (x =? BOM)%N) s))) p = true)
    as Hr.
  { revert s Hs. induction Hp as [|k p Hk Hp IH]; intros s Hs; [apply startswith_nil|].
    destruct s as [|c s]; [done|]. cbn [lower map startswith] in Hs.
    apply andb_true_iff in Hs as [Hc%N.eqb_eq Hs]. symmetry in Hc.
    destruct (letter_plain c k Hc Hk) as [Hsp Hb].
    cbn [List.filter]. destruct (N.eqb_spec c BOM) as [|_]; [done|]. cbn [negb].
    rewrite rstrip_cons_keep by done. cbn [lower map startswith].
    rewrite Hc, N.eqb_refl. cbn [andb]. by apply IH. }
  unfold strip. destruct Hp as [|k p Hk Hp]; [apply startswith_nil|].
  destruct s as [|c s]; [done|]. cbn [lower map startswith] in Hs.
  apply andb_true_iff in Hs as [Hc%N.eqb_eq _]. symmetry in Hc.
  destruct (letter_plain c k Hc Hk) as [Hsp Hb].
  cbn [List.filter] in *. destruct (N.eqb_spec c BOM) as [|_]; [done|]. cbn [negb] in *.
  by rewrite lstrip_nonspace.
Qed.

Lemma unnamed_letters : Forall (fun k => 97 <= k <= 122)%N (lit "unnamed").
Proof. repeat constructor; by vm_compute. Qed.

Lemma bom_test_cleaned (ls : list label) :
  List.filter bom_test (map clean_label ls) = [].
Proof.
  induction ls as [|c ls IH]; [done|]. cbn [map List.filter clean_label bom_test].
  destruct (contains BOM _) eqn:E; [|exact IH].
  apply contains_elem, strip_elem, elem_of_list_filter_bool in E as [_ E].
  by rewrite N.eqb_refl in E.
Qed.

Lemma whitespace_test_cleaned (ls : list label) :
  List.filter whitespace_test (map clean_label ls) = [].
Proof.
  induction ls as [|c ls IH]; [done|]. cbn [map List.filter clean_label whitespace_test].
  rewrite strip_idem, bool_decide_eq_true_2 by done. exact IH.
Qed.

(** X8.  On the table [clean_column_names] returns, [find_suspicious_columns]
    reports no whitespace column and no BOM column.  A column reported as
    unnamed before the cleaning is reported after it, and two columns with
    equal names before have equal names after: cleaning hides neither an
    unnamed nor a duplicate column. *)
Theorem clean_then_inspect (σ : store) (r : ref) (df : DataFrame) :
  σ !! r = Some df ->
  exists r' σ' df',
    clean_column_names r σ = Returns (Ok r') σ'
    ∧ σ' !! r' = Some df'
    ∧ whitespace_columns (find_suspicious_columns df') = []
    ∧ bom_columns (find_suspicious_columns df') = []
    ∧ (forall i c, columns df !! i = Some c ->
         startswith (lower (py_str c)) (lit "unnamed") = true ->
         exists c', columns df' !! i = Some c'
           ∧ c' ∈ unnamed_columns (find_suspicious_columns df'))
    ∧ (forall i j, is_Some (columns df !! i) ->
         columns df !! i = columns df !! j -> columns df' !! i = columns df' !! j).
Proof.
  intros Hr. eexists _, _, _. split; [by apply clean_column_names_run|].
  split; [apply lookup_insert_eq|].
  assert (columns (zip_with set_name (map clean_label (columns df)) df)
          = map clean_label (columns df)) as Hcols.
  { apply set_name_columns. unfold columns. by rewrite !length_map. }
  split_and!.
  - cbn. rewrite Hcols. apply whitespace_test_cleaned.
  - cbn. rewrite Hcols. apply bom_test_cleaned.
  - intros i c Hi Hun. exists (clean_label c). rewrite Hcols.
    assert (map clean_label (columns df) !! i = Some (clean_label c)) as Hi'
      by (by rewrite list_lookup_fmap, Hi).
    split; [done|]. apply elem_of_unnamed_columns. rewrite Hcols. split.
    + by eapply list_elem_of_lookup_2.
    + cbn [clean_label py_str]. apply startswith_cleaned; [apply unnamed_letters|done].
  - intros i j _ Hij. by rewrite Hcols, !list_lookup_fmap, Hij.
Qed.

Lemma clean_then_inspect_witness :
  exists r' σ' df',
    clean_column_names 0%nat {[ 0%nat := padded_table ]} = Returns (Ok r') σ'
    ∧ σ' !! r' = Some df'
    ∧ bom_columns (find_suspicious_columns padded_table) <> []
    ∧ whitespace_columns (find_suspicious_columns df') = []
    ∧ bom_columns (find_suspicious_columns df') = [].
Proof.
  destruct (clean_then_inspect {[ 0%nat := padded_table ]} 0%nat padded_table
              (lookup_singleton_eq _ _))
    as (r' & σ' & df' & Hrun & Hdf' & Hws & Hbom & _).
  exists r', σ', df'. split; [exact Hrun|]. split; [exact Hdf'|].
  split; [by vm_compute|]. split; [exact Hws|exact Hbom].
Defined.

(** X9.  Cleaning the names changes nothing an audit counts: the cleaned
    table has the rows of the input, so whenever the audits of the two
    tables return, [basic_audit] gives the cleaned table the same shape, the
    same number of duplicates and the same duplicate rate.  Cleaning can
    give two columns one name; the audit of the cleaned table under such a
    name raises the library's [ValueError], whatever the audit of the input
    did. *)
Theorem clean_keeps_audit `{Runtime} (σ : store) (r : ref) (df : DataFrame)
    (label_col label_col' : label) (k k' : Z) :
  σ !! r = Some df ->
  exists r' σ' df',
    clean_column_names r σ = Returns (Ok r') σ'
    ∧ σ' !! r' = Some df'
    ∧ columns df' = map clean_label (columns df)
    ∧ rows df' = rows df
    ∧ ((occurrences label_col (columns df) <= 1)%nat ->
       (occurrences label_col' (columns df') <= 1)%nat ->
       exists a a',
         basic_audit df label_col k = Ok a
         ∧ basic_audit df' label_col' k' = Ok a'
         ∧ shape a' = shape a
         ∧ n_duplicates a' = n_duplicates a
         ∧ duplicate_rate a' = duplicate_rate a)
    ∧ ((1 < occurrences label_col' (columns df'))%nat ->
       basic_audit df' label_col' k' = Raise ValueError).
Proof.
  intros Hr.
  set (df' := zip_with set_name (map clean_label (columns df)) df).
  assert (length (map clean_label (columns df)) = length df) as Hlen
    by (unfold columns; by rewrite !length_map).
  assert (map values df' = map values df) as Hv by (by apply set_name_data).
  assert (rows df' = rows df) as Hrows by (by apply rows_values).
  assert (len df' = len df) as Hl by (by apply len_values).
  assert (length df' = length df) as Hn.
  { rewrite <- (length_map values df'), Hv. apply length_map. }
  exists (fresh (dom σ)), (<[fresh (dom σ) := df']> σ), df'.
  split_and!.
  - by apply clean_column_names_run.
  - apply lookup_insert_eq.
  - by apply set_name_columns.
  - done.
  - intros Hone Hone'.
    destruct (basic_audit_returns df label_col k Hone) as (a & Ha & Hs & Hd & Hrate & _).
    destruct (basic_audit_returns df' label_col' k' Hone')
      as (a' & Ha' & Hs' & Hd' & Hrate' & _).
    exists a, a'. unfold df_duplicated, row_keys in Hd, Hd'. split_and!; try done.
    + by rewrite Hs, Hs', Hl, Hn.
    + by rewrite Hd, Hd', Hrows.
    + by rewrite Hrate, Hrate', Hd, Hd', Hrows, Hl.
  - apply basic_audit_raises.
Qed.

Lemma clean_keeps_audit_witness :
  exists r' σ' df',
    clean_column_names 0%nat {[ 0%nat := twin_label_table ]} = Returns (Ok r') σ'
    ∧ σ' !! r' = Some df'
    ∧ columns df' = [LStr (lit "Label"); LStr (lit "Label")]
    ∧ (exists a a',
         @basic_audit sample_runtime twin_label_table (LStr (lit "Label")) 15 = Ok a
         ∧ @basic_audit sample_runtime df' (LStr (lit " Label")) 15 = Ok a'
         ∧ shape a' = shape a
         ∧ n_duplicates a' = n_duplicates a
         ∧ duplicate_rate a' = duplicate_rate a)
    ∧ @basic_audit sample_runtime df' (LStr (lit "Label")) 15 = Raise ValueError.
Proof.
  destruct (@clean_keeps_audit sample_runtime {[ 0%nat := twin_label_table ]} 0%nat
              twin_label_table (LStr (lit "Label")) (LStr (lit " Label")) 15 15
              (lookup_singleton_eq _ _))
    as (r' & σ' & df' & Hrun & Hdf' & Hcols & _ & Hsame & _).
  destruct (@clean_keeps_audit sample_runtime {[ 0%nat := twin_label_table ]} 0%nat
              twin_label_table (LStr (lit "Label")) (LStr (lit "Label")) 15 15
              (lookup_singleton_eq _ _))
    as (r2 & σ2 & df2 & Hrun2 & Hdf2 & Hcols2 & _ & _ & Hraise).
  assert (df2 = df') as ->.
  { rewrite Hrun in Hrun2. injection Hrun2 as <- <-. rewrite Hdf' in Hdf2. by injection Hdf2. }
  exists r', σ', df'. split; [exact Hrun|]. split; [exact Hdf'|].
  split; [exact Hcols|]. split.
  - apply Hsame; [vm_compute; lia|]. rewrite Hcols. vm_compute. lia.
  - apply Hraise. rewrite Hcols. vm_compute. lia.
Defined.

(** ** The listing and its sizes *)

(** The outcome of a comparison of rationals, as an order fact. *)
Ltac compare_facts :=
  repeat match goal with
         | H : (_ ?= _)%Q = Eq |- _ => apply Qeq_alt in H
         | H : (_ ?= _)%Q = Lt |- _ => apply Qlt_alt in H
         | H : (_ ?= _)%Q = Gt |- _ => apply Qgt_alt in H
         end.

Lemma round_half_even_mono (x y : Q) :
  (x <= y)%Q -> round_half_even x <= round_half_even y.
Proof.
  intros Hxy. unfold round_half_even.
  pose proof (Qfloor_resp_le x y Hxy) as Hf.
  pose proof (Qfloor_le x) as Hx1. pose proof (Qlt_floor x) as Hx2.
  pose proof (Qfloor_le y) as Hy1. pose proof (Qlt_floor y) as Hy2.
  destruct (Z.eq_dec (Qfloor x) (Qfloor y)) as [E|E].
  - rewrite <- E in *. clear E Hf.
    destruct (x - inject_Z (Qfloor x) ?= 1 # 2)%Q eqn:Ex;
      destruct (y - inject_Z (Qfloor x) ?= 1 # 2)%Q eqn:Ey;
      compare_facts; destruct (Z.even (Qfloor x)); first [lia | exfalso; lra].
  - destruct (x - inject_Z (Qfloor x) ?= 1 # 2)%Q;
      destruct (y - inject_Z (Qfloor y) ?= 1 # 2)%Q;
      destruct (Z.even (Qfloor x)); destruct (Z.even (Qfloor y)); lia.
Qed.

Lemma round_half_even_nonneg (x : Q) : (0 <= x)%Q -> 0 <= round_half_even x.
Proof.
  intros Hx. pose proof (round_half_even_mono 0 x Hx) as H.
  by vm_compute (round_half_even 0) in H.
Qed.

(** The hundredths a size is shown with. *)
Lemma size_mb_hundredths (a : N) :
  size_mb a =
    (inject_Z (round_half_even
                 (inject_Z (Z.of_N a) / inject_Z 1048576 * inject_Z 100))
     / inject_Z 100)%Q.
Proof. reflexivity. Qed.

Lemma scaled_eq (a : Z) :
  (inject_Z a / inject_Z 1048576 * inject_Z 100 == inject_Z a * (100 # 1048576))%Q.
Proof.
  unfold Qdiv. change (/ inject_Z 1048576)%Q with (1 # 1048576)%Q.
  change (inject_Z 100) with (100 # 1)%Q. ring.
Qed.

Lemma hundredths_eq (h : Z) : (inject_Z h / inject_Z 100 == inject_Z h * (1 # 100))%Q.
Proof. unfold Qdiv. change (/ inject_Z 100)%Q with (1 # 100)%Q. ring. Qed.

Lemma scaled_le (a b : Z) :
  a <= b ->
  (inject_Z a / inject_Z 1048576 * inject_Z 100
   <= inject_Z b / inject_Z 1048576 * inject_Z 100)%Q.
Proof. rewrite Zle_Qle, !scaled_eq. intros H. lra. Qed.

(** X10.  The listing [list_csv_files] returns has the two columns "file"
    and "size_mb" and one row per "*.csv" entry of the directory, at least
    one; the file names are pairwise distinct.  The size shown is a
    non-negative number of hundredths that grows with the size in bytes, and
    it is 0.0 exactly for the files smaller than 5243 bytes. *)
Theorem list_csv_files_shape (fs : filesystem) (dir : Path) :
  (forall df, list_csv_files fs dir = Ok df ->
     exists files,
       files ≡ₚ glob fs dir (lit ".csv")
       ∧ (1 <= length files)%nat
       ∧ NoDup (map path_name files)
       ∧ columns df = [LStr (lit "file"); LStr (lit "size_mb")]
       ∧ map values df =
           [ map (fun f => VStr (path_name f)) files;
             map (fun f => VFloat (Q2Qc (size_mb (stat_size fs f)))) files ]
       ∧ len df = length files
       ∧ rectangular df)
  ∧ (forall a b : N, (a <= b)%N -> (size_mb a <= size_mb b)%Q)
  ∧ (forall a : N, (0 <= size_mb a)%Q)
  ∧ (forall a : N, (size_mb a == 0)%Q <-> (a < 5243)%N).
Proof.
  split_and!.
  - intros df. unfold list_csv_files. destruct (exists_ fs dir); [|done]. cbn [negb].
    destruct (sorted_glob fs dir (lit ".csv")) as (Hin & Hnd & _ & Hnames).
    pose proof (sorted_perm (glob fs dir (lit ".csv"))) as Hperm.
    destruct (sorted (glob fs dir (lit ".csv"))) as [|f files]; [done|].
    intros [= <-]. exists (f :: files). split_and!; try done.
    + cbn. lia.
    + clear -Hnames. induction Hnames as [|a l Hs IH Hall]; [constructor|].
      cbn [map]. apply NoDup_cons. split; [|done].
      intros (q & Hq & Hin)%list_elem_of_fmap. rewrite Forall_forall in Hall.
      specialize (Hall q Hin). rewrite Hq in Hall.
      assert (Str.compare (path_name q) (path_name q) = Eq) by by apply str_compare_eq.
      congruence.
    + cbn [len values map length]. by rewrite length_map.
    + repeat constructor; cbn [len values map length]; by rewrite !length_map.
  - intros a b Hab. rewrite !size_mb_hundredths, !hundredths_eq.
    assert (round_half_even (inject_Z (Z.of_N a) / inject_Z 1048576 * inject_Z 100)
            <= round_half_even (inject_Z (Z.of_N b) / inject_Z 1048576 * inject_Z 100)) as H.
    { apply round_half_even_mono, scaled_le. lia. }
    rewrite Zle_Qle in H. lra.
  - intros a. rewrite size_mb_hundredths, hundredths_eq.
    assert (0 <= round_half_even (inject_Z (Z.of_N a) / inject_Z 1048576 * inject_Z 100)) as H.
    { apply round_half_even_nonneg. rewrite scaled_eq.
      assert (inject_Z 0 <= inject_Z (Z.of_N a))%Q as H0 by (rewrite <- Zle_Qle; lia).
      change (inject_Z 0) with 0%Q in H0. lra. }
    rewrite Zle_Qle in H. change (inject_Z 0) with 0%Q in H. lra.
  - intros a. rewrite size_mb_hundredths, hundredths_eq.
    set (y := (inject_Z (Z.of_N a) / inject_Z 1048576 * inject_Z 100)%Q).
    assert (y == inject_Z (Z.of_N a) * (100 # 1048576))%Q as Hy by apply scaled_eq.
    assert ((inject_Z (round_half_even y) * (1 # 100) == 0)%Q
            <-> round_half_even y = 0) as ->.
    { split.
      - intros H. assert (0 <= round_half_even y ∧ round_half_even y <= 0) as [??]; [|lia].
        rewrite !Zle_Qle. change (inject_Z 0) with 0%Q. split; lra.
      - intros ->. reflexivity. }
    destruct (round_half_even_near y) as [Hlo Hhi].
    split.
    + intros H0. rewrite H0 in Hlo, Hhi. change (inject_Z 0) with 0%Q in Hlo, Hhi.
      assert (Z.of_N a * 200 <= 1048576) as Hz.
      { rewrite Zle_Qle, inject_Z_mult.
        change (inject_Z 200) with (200 # 1)%Q.
        change (inject_Z 1048576) with (1048576 # 1)%Q. lra. }
      lia.
    + intros Ha.
      assert (inject_Z 0 <= inject_Z (Z.of_N a) ∧ inject_Z (Z.of_N a) <= inject_Z 5242)%Q
        as [H1 H2] by (rewrite <- !Zle_Qle; lia).
      change (inject_Z 0) with 0%Q in H1. change (inject_Z 5242) with (5242 # 1)%Q in H2.
      assert (-1 < round_half_even y < 1) as Hr.
      { rewrite !Zlt_Qlt. change (inject_Z (-1)) with (-1 # 1)%Q.
        change (inject_Z 1) with 1%Q. split; lra. }
      lia.
Qed.

Lemma list_csv_files_shape_witness :
  exists df files,
    list_csv_files data_fs data_dir = Ok df
    ∧ files ≡ₚ glob data_fs data_dir (lit ".csv")
    ∧ len df = 2%nat
    ∧ columns df = [LStr (lit "file"); LStr (lit "size_mb")].
Proof.
  destruct (list_csv_files data_fs data_dir) as [df|e] eqn:E; [|by vm_compute in E].
  destruct (proj1 (list_csv_files_shape data_fs data_dir) df E)
    as (files & Hperm & _ & _ & Hcols & _ & Hlen & _).
  exists df, files. split; [reflexivity|]. split; [exact Hperm|]. split; [|exact Hcols].
  rewrite Hlen, Hperm. by vm_compute.
Defined.

(** ** The shape of a numeric summary *)

Lemma slice_to_prefix {A} (n : Z) (l : list A) : slice_to n l `prefix_of` l.
Proof. unfold slice_to. destruct (0 <=? n); apply prefix_take. Qed.

Lemma slice_to_length {A} (n : Z) (l : list A) :
  Z.of_nat (length (slice_to n l)) =
    if 0 <=? n then Z.min n (Z.of_nat (length l))
    else Z.max 0 (Z.of_nat (length l) + n).
Proof.
  unfold slice_to. destruct (Z.leb_spec 0 n); rewrite length_take; lia.
Qed.

(** X11.  Whatever [max_cols] is, [numeric_summary] returns a well-formed
    table: as many rows of values as row labels, every row as long as the
    list of statistics, which is empty (the empty table) or the eight of
    [describe].  The row labels are an initial part of the names of the
    numeric columns, in column order, so there are never more rows than
    numeric columns; a negative [max_cols] leaves out that many numeric
    columns at the end. *)
Theorem numeric_summary_shape `{Runtime} (df : DataFrame) (max_cols : Z) :
  let num_df := select_dtypes [int64; float64] df in
  let s := numeric_summary df max_cols in
  length (body s) = length (index s)
  ∧ Forall (fun r => length r = length (stats s)) (body s)
  ∧ (stats s = [] ∧ index s = []
     ∨ stats s = [Count; Mean; Std; Min; Percentile 1; Percentile 50; Percentile 99; Max])
  ∧ index s `prefix_of` columns num_df
  ∧ (length (index s) <= length num_df)%nat
  ∧ (empty num_df = false -> max_cols < 0 ->
       Z.of_nat (length (index s)) = Z.max 0 (Z.of_nat (length num_df) + max_cols)).
Proof.
  intros num_df s. unfold s, numeric_summary. fold num_df.
  destruct (empty num_df) eqn:E.
  - cbn. split_and!; try done; [by left|apply prefix_nil|lia].
  - cbn [summary_head describe_T index body stats]. unfold pd_head.
    assert (length (columns num_df) = length num_df) as Hc
      by (unfold columns; apply length_map).
    split_and!.
    + apply Nat2Z.inj. rewrite !slice_to_length, length_map, Hc. done.
    + apply Forall_forall. intros r Hr.
      eapply elem_of_prefix in Hr; [|apply slice_to_prefix].
      apply list_elem_of_fmap in Hr as (c & -> & _). by rewrite length_map.
    + by right.
    + apply slice_to_prefix.
    + rewrite <- Hc. apply prefix_length, slice_to_prefix.
    + intros _ Hneg. rewrite slice_to_length, Hc.
      destruct (Z.leb_spec 0 max_cols); [lia|done].
Qed.

(** ** Duplicate columns *)

Lemma length_select (A : Type) (l : list A) (mask : list bool) :
  length mask = length l -> length (select l mask) = count_true mask.
Proof.
  revert mask. induction l as [|a l IH]; intros [|b mask] Hlen; simplify_eq/=; [done|].
  rewrite count_true_cons. destruct b; cbn [length]; rewrite IH by done; lia.
Qed.

(** X12.  [duplicate_columns] lists as many labels as there are columns
    beyond the distinct labels; it is empty exactly when the column labels
    are pairwise distinct, and every label it lists occurs at least twice
    among the columns. *)
Theorem duplicate_columns_count (df : DataFrame) :
  let dups := duplicate_columns (find_suspicious_columns df) in
  (length dups + length (remove_dups (columns df)) = length df)%nat
  ∧ (dups = [] <-> NoDup (columns df))
  ∧ (forall c, c ∈ dups ->
       exists i j, i <> j ∧ columns df !! i = Some c ∧ columns df !! j = Some c).
Proof.
  intros dups. unfold dups. cbn [find_suspicious_columns duplicate_columns].
  split_and!.
  - rewrite length_select by apply duplicated_from_length.
    rewrite count_duplicated_distinct. unfold columns. apply length_map.
  - split.
    + intros Hnil. apply NoDup_alt. intros i j c Hi Hj.
      destruct (Nat.lt_trichotomy i j) as [Hlt|[->|Hlt]]; [|done|].
      * assert (c ∈ select (columns df) (duplicated (columns df))) as Hin
          by (apply elem_of_select_duplicated; eauto).
        rewrite Hnil in Hin. by apply elem_of_nil in Hin.
      * assert (c ∈ select (columns df) (duplicated (columns df))) as Hin
          by (apply elem_of_select_duplicated; eauto).
        rewrite Hnil in Hin. by apply elem_of_nil in Hin.
    + intros Hnd. destruct (select (columns df) (duplicated (columns df))) as [|c l] eqn:E;
        [done|].
      assert (c ∈ select (columns df) (duplicated (columns df))) as Hin
        by (rewrite E; left).
      apply elem_of_select_duplicated in Hin as (i & j & Hlt & Hi & Hj).
      rewrite NoDup_alt in Hnd. specialize (Hnd i j c Hi Hj). lia.
  - intros c (i & j & Hlt & Hi & Hj)%elem_of_select_duplicated.
    exists i, j. split; [lia|done].
Qed.

(** ** Bounds of the audit *)

Section NoDuplicates.
Context {A : Type} `{EqDecision A}.

Lemma count_duplicated_zero (l : list A) :
  count_true (duplicated l) = 0%nat <-> NoDup l.
Proof.
  rewrite <- (length_select A l (duplicated l)) by apply duplicated_from_length.
  rewrite length_zero_iff_nil. split.
  - intros Hnil. apply NoDup_alt. intros i j c Hi Hj.
    destruct (Nat.lt_trichotomy i j) as [Hlt|[->|Hlt]]; [|done|];
      (assert (c ∈ select l (duplicated l)) as Hin
         by (apply elem_of_select_duplicated; eauto));
      rewrite Hnil in Hin; by apply elem_of_nil in Hin.
  - intros Hnd. destruct (select l (duplicated l)) as [|c k] eqn:E; [done|].
    assert (c ∈ select l (duplicated l)) as Hin by (rewrite E; left).
    apply elem_of_select_duplicated in Hin as (i & j & Hlt & Hi & Hj).
    rewrite NoDup_alt in Hnd. specialize (Hnd i j c Hi Hj). lia.
Qed.

Lemma count_duplicated_lt (l : list A) :
  l <> [] -> (count_true (duplicated l) < length l)%nat.
Proof.
  intros Hne. pose proof (count_duplicated_distinct l) as Hd.
  destruct l as [|a l]; [done|].
  assert (a ∈ remove_dups (a :: l)) as Hin by (apply elem_of_remove_dups; left).
  destruct (remove_dups (a :: l)); [by apply elem_of_nil in Hin|].
  cbn [length] in *. lia.
Qed.
End NoDuplicates.

Lemma ratio_bounds (a b : Z) :
  0 <= a <= b -> 0 < b ->
  (0 <= inject_Z a / inject_Z b ∧ inject_Z a / inject_Z b <= 1)%Q.
Proof.
  intros [Ha Hab] Hb.
  assert (0 < inject_Z b)%Q as Hb' by (by rewrite Zlt_Qlt in Hb).
  rewrite Zle_Qle in Ha, Hab. change (inject_Z 0) with 0%Q in Ha.
  split.
  - apply Qle_shift_div_l; [done|]. lra.
  - apply Qle_shift_div_r; [done|]. lra.
Qed.

Lemma ratio_lt_1 (a b : Z) : a < b -> 0 < b -> (inject_Z a / inject_Z b < 1)%Q.
Proof.
  intros Hab Hb.
  assert (0 < inject_Z b)%Q as Hb' by (by rewrite Zlt_Qlt in Hb).
  rewrite Zlt_Qlt in Hab. apply Qlt_shift_div_r; [done|]. lra.
Qed.

Lemma ratio_zero (a b : Z) : 0 < b -> (inject_Z a / inject_Z b == 0)%Q <-> a = 0.
Proof.
  intros Hb. destruct b as [|p|p]; try lia.
  unfold Qeq, Qdiv, Qmult, Qinv. cbn. lia.
Qed.

(** X13.  The duplicate rate is a proportion: at least 0 and below 1, since
    the first row of a table never counts as a duplicate.  [n_duplicates]
    is 0, and so is the rate, exactly when no two rows have equal values in
    every column.  The audit returns whenever [label_col] names at most one
    column. *)
Theorem basic_audit_rate_bounds `{Runtime} (df : DataFrame) (label_col : label) (k : Z) :
  (occurrences label_col (columns df) <= 1)%nat ->
  exists r, basic_audit df label_col k = Ok r
    ∧ (0 <= duplicate_rate r)%Q
    ∧ (duplicate_rate r < 1)%Q
    ∧ (len df <> 0%nat -> n_duplicates r < Z.of_nat (len df))
    ∧ (n_duplicates r = 0 <-> NoDup (row_keys df))
    ∧ ((duplicate_rate r == 0)%Q <-> NoDup (row_keys df)).
Proof.
  intros Hone.
  destruct (basic_audit_returns df label_col k Hone) as (r & Hr & _ & Hn & Hrate & _).
  unfold df_duplicated in Hn.
  assert (n_duplicates r = 0 <-> NoDup (row_keys df)) as Hzero.
  { rewrite Hn, <- count_duplicated_zero. lia. }
  exists r. split; [done|].
  destruct (Nat.eqb_spec (len df) 0) as [E|E].
  - assert (row_keys df = []) as Hrows
      by (apply length_zero_iff_nil; by rewrite row_keys_length).
    rewrite Hrate. split_and!; try done.
    split; [intros _; rewrite Hrows; constructor|done].
  - assert (row_keys df <> []) as Hne.
    { intros Hnil. apply E. by rewrite <- row_keys_length, Hnil. }
    pose proof (count_duplicated_lt (row_keys df) Hne) as Hlt.
    rewrite row_keys_length in Hlt.
    assert (0 <= n_duplicates r < Z.of_nat (len df)) as Hb by (rewrite Hn; lia).
    rewrite Hrate. split_and!.
    + apply ratio_bounds; lia.
    + apply ratio_lt_1; lia.
    + intros _. lia.
    + done.
    + rewrite ratio_zero by lia. done.
Qed.

Lemma basic_audit_rate_bounds_witness :
  exists r, @basic_audit sample_runtime loose_table (LStr (lit "Label")) 15 = Ok r
    ∧ (0 <= duplicate_rate r)%Q
    ∧ (duplicate_rate r < 1)%Q
    ∧ n_duplicates r <> 0.
Proof.
  destruct (@basic_audit_rate_bounds sample_runtime loose_table (LStr (lit "Label")) 15)
    as (r & Hr & H0 & H1 & _ & Hzero & _); [vm_compute; lia|].
  exists r. split; [exact Hr|]. split; [exact H0|]. split; [exact H1|].
  intros Hn. apply Hzero in Hn. revert Hn. apply (bool_decide_eq_false_1 _). by vm_compute.
Defined.

Lemma percent_bounds (a b : Z) :
  0 <= a <= b -> 0 < b ->
  (0 <= inject_Z a / inject_Z b * 100 ∧ inject_Z a / inject_Z b * 100 <= 100)%Q.
Proof.
  intros Hab Hb. destruct (ratio_bounds a b Hab Hb) as [H0 H1]. split; lra.
Qed.

Lemma slice_to_elem {A} (n : Z) (l : list A) x : x ∈ slice_to n l -> x ∈ l.
Proof. intros Hx. eapply elem_of_prefix; [exact Hx|apply slice_to_prefix]. Qed.

(** X14.  [missing_top] never has more entries than the table has columns.
    Every entry is the name of a column with that column's percentage of
    missing values: a number from 0 to 100, or not-a-number when the table
    has no rows.  The audit returns whenever [label_col] names at most one
    column. *)
Theorem basic_audit_missing_bounds `{Runtime} (df : DataFrame) (label_col : label) (k : Z) :
  rectangular df ->
  (occurrences label_col (columns df) <= 1)%nat ->
  exists r, basic_audit df label_col k = Ok r
    ∧ (length (missing_top r) <= length df)%nat
    ∧ (forall l v, (l, v) ∈ missing_top r ->
         (exists c, c ∈ df ∧ l = name c ∧ v = missing_percent df c)
         ∧ match v with
           | None => len df = 0%nat
           | Some x => len df <> 0%nat ∧ (0 <= x)%Q ∧ (x <= 100)%Q
           end).
Proof.
  intros Hrect Hone.
  destruct (basic_audit_returns df label_col k Hone) as (r & Hr & _ & _ & _ & Htop & _).
  pose proof (sort_by_perm (fun a b => desc_leb (snd a) (snd b))
                (times_100 (isna_mean df))) as Hperm.
  fold (sort_values_desc (times_100 (isna_mean df))) in Hperm.
  rewrite (missing_percent_computed df Hrect) in Hperm.
  exists r. split; [done|]. rewrite Htop, (missing_percent_computed df Hrect). split.
  - etrans; [apply prefix_length, slice_to_prefix|].
    by rewrite Hperm, length_map.
  - intros l v Hin%slice_to_elem. rewrite Hperm in Hin.
    apply list_elem_of_fmap in Hin as (c & [= -> ->] & Hc). split; [eauto|].
    unfold missing_percent. destruct (Nat.eqb_spec (len df) 0) as [E|E]; [done|].
    split; [done|]. apply percent_bounds; [|lia]. split; [lia|].
    unfold null_count. rewrite <- (rectangular_elem df c Hrect Hc).
    apply inj_le, sublist_length, list_filter_sublist.
Qed.

Lemma basic_audit_missing_bounds_witness :
  exists r, @basic_audit sample_runtime repeated_table (LStr (lit "Label")) (-1) = Ok r
    ∧ (length (missing_top r) <= length repeated_table)%nat
    ∧ (forall l v, (l, v) ∈ missing_top r ->
         (exists c, c ∈ repeated_table ∧ l = name c ∧ v = missing_percent repeated_table c)
         ∧ match v with
           | None => len repeated_table = 0%nat
           | Some x => len repeated_table <> 0%nat ∧ (0 <= x)%Q ∧ (x <= 100)%Q
           end).
Proof.
  apply (@basic_audit_missing_bounds sample_runtime repeated_table (LStr (lit "Label")) (-1)).
  - repeat constructor.
  - vm_compute. lia.
Defined.

(** ** A peek is the beginning of the full load *)

Lemma read_csv_full_inv (fs : filesystem) path df0 :
  read_csv fs path None = Ok df0 ->
  exists sz csv,
    fs !! path = Some (File sz (Some csv))
    ∧ header csv <> []
    ∧ Forall (fun r => length r = length (header csv)) (records csv)
    ∧ df0 = frame_of (header csv) (records csv).
Proof.
  unfold read_csv. destruct (fs !! path) as [[?|sz [csv|]]|]; try done.
  destruct (header csv) as [|h hd] eqn:Eh; [done|]. cbn [rbind].
  destruct (forallb _ (records csv)) eqn:Ef; [|done]. intros [= <-].
  exists sz, csv. rewrite Eh. split_and!; [done|done| |done].
  apply Forall_forall. intros r Hr%list_elem_of_In.
  rewrite forallb_forall in Ef. by apply Nat.eqb_eq, Ef.
Qed.

(** X15.  When [load_full] returns a table, [load_peek] on the same path
    returns, for every [nrows >= 0], a table with the same column names
    whose rows are the first [nrows] rows of the full table; from
    [nrows = len(full)] on it has all of them.  Rows are compared by the
    values as the file holds them: the type the reader infers for a column
    depends on the rows it has read and may differ between the two. *)
Theorem load_peek_prefix (fs : filesystem) (path : Path) (nrows : Z) (full : DataFrame) :
  load_full fs path = Ok full ->
  0 <= nrows ->
  exists peek,
    load_peek fs path nrows = Ok peek
    ∧ columns peek = columns full
    ∧ rows peek = take (Z.to_nat nrows) (rows full)
    ∧ (Z.of_nat (len full) <= nrows -> rows peek = rows full).
Proof.
  intros (_ & df0 & Hread & Hstep)%load_full_inv Hn.
  apply read_csv_full_inv in Hread as (sz & csv & Hp & Hhd & Hall & ->).
  apply strip_step in Hstep as (Hcols & Hvals & _).
  assert (rows full = records csv) as Hrows.
  { rewrite (rows_values _ _ Hvals). by apply rows_frame_of. }
  set (rs := take (Z.to_nat nrows) (records csv)).
  set (ls := map (fun h => LStr (strip h)) (header csv)).
  assert (length ls = length (frame_of (header csv) rs)) as Hlen
    by (unfold ls; by rewrite length_map, length_frame_of).
  assert (rows (zip_with set_name ls (frame_of (header csv) rs)) = rs) as Hpeek.
  { rewrite (rows_values _ (frame_of (header csv) rs)) by (by apply set_name_data).
    apply rows_frame_of; [done|]. by apply Forall_take. }
  exists (zip_with set_name ls (frame_of (header csv) rs)). split_and!.
  - by apply (load_peek_run fs path nrows sz csv).
  - rewrite set_name_columns by done. rewrite Hcols, columns_frame_of, map_map. done.
  - by rewrite Hpeek, Hrows.
  - intros Hge. rewrite Hpeek, Hrows. unfold rs. apply take_ge.
    rewrite <- Hrows, rows_length. lia.
Qed.

Lemma load_peek_prefix_witness :
  exists full peek,
    load_full data_fs (data_dir ++ [lit "b.csv"]) = Ok full
    ∧ load_peek data_fs (data_dir ++ [lit "b.csv"]) 2 = Ok peek
    ∧ columns peek = columns full
    ∧ rows peek = take 2 (rows full).
Proof.
  destruct (load_full data_fs (data_dir ++ [lit "b.csv"])) as [full|e] eqn:E;
    [|by vm_compute in E].
  destruct (load_peek_prefix data_fs (data_dir ++ [lit "b.csv"]) 2 full E ltac:(discriminate))
    as (peek & Hp & Hc & Hr & _).
  exists full, peek. split; [reflexivity|]. split; [exact Hp|]. split; [exact Hc|exact Hr].
Defined.

(** ** The label distribution *)

Section FirstOccurrences.
Context {A : Type} `{EqDecision A}.
Implicit Types (l seen keys : list A).

Lemma elem_of_first_occurrences seen l x :
  x ∈ select l (map negb (duplicated_from seen l)) <-> x ∈ l ∧ x ∉ seen.
Proof.
  revert seen. induction l as [|a l IH]; intros seen; cbn [duplicated_from map select].
  - split; [by intros ?%elem_of_nil|by intros [?%elem_of_nil _]].
  - case_bool_decide as Ha; cbn [negb].
    + rewrite IH, !elem_of_cons. destruct (decide (x = a)); naive_solver.
    + rewrite elem_of_cons, IH, !elem_of_cons. destruct (decide (x = a)); naive_solver.
Qed.

Lemma NoDup_first_occurrences seen l :
  NoDup (select l (map negb (duplicated_from seen l))).
Proof.
  revert seen. induction l as [|a l IH]; intros seen; cbn [duplicated_from map select].
  - constructor.
  - case_bool_decide as Ha; cbn [negb]; [apply IH|].
    apply NoDup_cons. split; [|apply IH].
    rewrite elem_of_first_occurrences, elem_of_cons. naive_solver.
Qed.

Lemma occurrences_cons k a l :
  occurrences k (a :: l) = ((if bool_decide (a = k) then 1 else 0) + occurrences k l)%nat.
Proof. unfold occurrences. cbn [List.filter]. by destruct (bool_decide (a = k)). Qed.

Lemma sum_indicator a keys :
  NoDup keys -> a ∈ keys ->
  sum_list_with (fun k => if bool_decide (a = k) then 1 else 0)%nat keys = 1%nat.
Proof.
  induction 1 as [|b keys Hb Hnd IH]; [by intros ?%elem_of_nil|].
  cbn [sum_list_with]. intros [->|Hin]%elem_of_cons.
  - rewrite bool_decide_eq_true_2 by done.
    assert (sum_list_with (fun k => if bool_decide (b = k) then 1 else 0)%nat keys = 0%nat)
      as ->; [|done].
    clear IH Hnd. induction keys as [|c keys IHk]; [done|]. cbn [sum_list_with].
    apply not_elem_of_cons in Hb as [Hbc Hb].
    rewrite bool_decide_eq_false_2 by done. by apply IHk.
  - rewrite bool_decide_eq_false_2 by (intros ->; done). by rewrite IH.
Qed.

(** Every entry is counted under exactly one key. *)
Lemma sum_occurrences keys l :
  NoDup keys -> (forall x, x ∈ l -> x ∈ keys) ->
  sum_list_with (fun k => occurrences k l) keys = length l.
Proof.
  intros Hnd. induction l as [|a l IH]; intros Hall.
  - clear. induction keys as [|k keys IHk]; [done|]. cbn [sum_list_with]. by rewrite IHk.
  - assert (sum_list_with (fun k => occurrences k (a :: l)) keys
            = (sum_list_with (fun k => if bool_decide (a = k) then 1 else 0) keys
               + sum_list_with (fun k => occurrences k l) keys)%nat) as ->.
    { clear. induction keys as [|k keys IHk]; [done|]. cbn [sum_list_with].
      rewrite IHk, occurrences_cons. lia. }
    rewrite sum_indicator by (try done; apply Hall; left).
    rewrite IH by (intros x Hx; apply Hall; by right). done.
Qed.
End FirstOccurrences.

(** The first occurrences under a key. *)
Section FirstBy.
Context {A K : Type} `{EqDecision K} (f : A -> K).

Lemma map_select (l : list A) (mask : list bool) :
  map f (select l mask) = select (map f l) mask.
Proof.
  revert mask. induction l as [|a l IH]; intros [|b mask]; cbn [select map]; try done.
  destruct b; cbn [map]; by rewrite IH.
Qed.

Lemma occurrences_map (k : K) (l : list A) :
  occurrences k (map f l) = length (List.filter (fun w => bool_decide (f w = k)) l).
Proof.
  unfold occurrences. induction l as [|a l IH]; [done|]. cbn [map List.filter].
  destruct (bool_decide (f a = k)); cbn [length]; by rewrite IH.
Qed.

End FirstBy.

Lemma StronglySorted_weaken {A} (R1 R2 : A -> A -> Prop) (l : list A) :
  (forall a b, R1 a b -> R2 a b) -> StronglySorted R1 l -> StronglySorted R2 l.
Proof.
  intros HR. induction 1 as [|a l Hs IH Hall]; constructor; [done|].
  eapply Forall_impl; [exact Hall|]. intros b. apply HR.
Qed.

(** Counting the entries with the key of a value counts the entries equal
    to it. *)
Lemma count_equal_values (v : cell) (vs : list cell) :
  isna v = false ->
  length (List.filter (fun w => bool_decide (key_of w = key_of v))
            (List.filter (fun w => negb (isna w)) vs))
  = length (List.filter (fun w => equal_values w v) vs).
Proof.
  intros Hv. induction vs as [|w vs IH]; [done|]. cbn [List.filter].
  assert (equal_values w v = bool_decide (key_of w = key_of v)) as ->
    by (apply bool_eq_decide, equal_values_key).
  destruct (isna w) eqn:Hw; cbn [negb List.filter].
  - destruct w; try done. rewrite bool_decide_eq_false_2; [done|]. by destruct v.
  - destruct (bool_decide (key_of w = key_of v)); cbn [length]; by rewrite IH.
Qed.

Lemma sum_counts (kept l : list cell) :
  sum_list_with snd
    (map (fun v => (v, length (List.filter (fun w => bool_decide (key_of w = key_of v)) kept)))
       l)
  = sum_list_with (fun k => occurrences k (map key_of kept)) (map key_of l).
Proof.
  induction l as [|v l IHl]; [done|]. cbn [map sum_list_with snd].
  by rewrite IHl, occurrences_map.
Qed.

(** The table [value_counts] returns. *)
Lemma value_counts_spec (vs : list cell) :
  let kept := List.filter (fun v => negb (isna v)) vs in
  NoDup (map (fun e => key_of (fst e)) (value_counts vs))
  ∧ (forall v n, (v, n) ∈ value_counts vs ->
       v ∈ kept ∧ n = length (List.filter (fun w => equal_values w v) vs))
  ∧ (forall w, w ∈ kept ->
       exists v n, (v, n) ∈ value_counts vs ∧ equal_values w v = true)
  ∧ sum_list_with snd (value_counts vs) = length kept
  ∧ StronglySorted (fun a b => (snd b <= snd a)%nat) (value_counts vs).
Proof.
  intros kept. unfold value_counts. cbv zeta. fold kept.
  set (firsts := select kept (map negb (duplicated (map key_of kept)))).
  set (counted := map _ firsts).
  assert (map key_of firsts
          = select (map key_of kept) (map negb (duplicated (map key_of kept)))) as Hkeys
    by apply map_select.
  assert (NoDup (map key_of firsts)) as Hnd
    by (rewrite Hkeys; apply NoDup_first_occurrences).
  assert (forall x, x ∈ map key_of firsts <-> x ∈ map key_of kept) as Hall.
  { intros x. rewrite Hkeys. unfold duplicated. rewrite elem_of_first_occurrences.
    split; [by intros [? _]|]. split; [done|apply not_elem_of_nil]. }
  assert (forall v, v ∈ firsts -> v ∈ kept) as Hsub.
  { intros v Hv. eapply elem_of_sublist; [exact Hv|apply select_sublist]. }
  pose proof (sort_by_perm (fun a b : cell * nat => Nat.leb (snd b) (snd a)) counted)
    as Hperm.
  assert (map (fun e : cell * nat => key_of (fst e)) counted = map key_of firsts) as Hfst.
  { unfold counted. rewrite map_map. done. }
  split_and!.
  - rewrite Hperm, Hfst. done.
  - intros v n. rewrite Hperm. unfold counted.
    intros (v0 & [= -> ->] & Hv)%list_elem_of_fmap. apply Hsub in Hv. split; [done|].
    apply count_equal_values.
    apply elem_of_list_filter_bool in Hv as [_ Hv]. by apply negb_true_iff in Hv.
  - intros w Hw.
    assert (key_of w ∈ map key_of firsts) as Hk.
    { apply Hall. apply list_elem_of_fmap. eauto. }
    apply list_elem_of_fmap in Hk as (v & Hkv & Hv).
    exists v, (length (List.filter (fun w0 => bool_decide (key_of w0 = key_of v)) kept)).
    split; [|by apply equal_values_key].
    rewrite Hperm. unfold counted. apply list_elem_of_fmap. eauto.
  - rewrite Hperm.
    assert (sum_list_with snd counted
            = sum_list_with (fun k => occurrences k (map key_of kept)) (map key_of firsts))
      as ->.
    { apply sum_counts. }
    rewrite sum_occurrences; [by rewrite length_map|done|]. intros x. apply Hall.
  - assert (StronglySorted (fun a b : cell * nat => Nat.leb (snd b) (snd a) = true)
              (sort_by (fun a b => Nat.leb (snd b) (snd a)) counted)) as Hs.
    { apply sort_by_sorted.
      - intros a b. destruct (Nat.leb_spec (snd b) (snd a)); [by left|right].
        apply Nat.leb_le. lia.
      - intros a b c. rewrite !Nat.leb_le. lia. }
    eapply StronglySorted_weaken; [|exact Hs]. intros a b. apply Nat.leb_le.
Qed.

(** X16.  When exactly one column carries the label, [label_counts] holds
    one entry per distinct label value that occurs, missing values left
    out: a value of the column with the number of rows whose label is
    equal to it (as 1, 1.0 and [True] are equal), at least 1, the most
    frequent first.  The counts add up to the number of rows whose label
    is not missing, so to at most the number of rows. *)
Theorem basic_audit_label_counts `{Runtime} (df : DataFrame) (label_col : label) (k : Z) :
  occurrences label_col (columns df) = 1%nat ->
  exists r s counts,
    basic_audit df label_col k = Ok r
    ∧ s ∈ df ∧ name s = label_col
    ∧ label_counts r = Some counts
    ∧ NoDup (map (fun e => key_of (fst e)) counts)
    ∧ (forall v n, (v, n) ∈ counts ->
         (1 <= n)%nat
         ∧ isna v = false
         ∧ v ∈ values s
         ∧ n = length (List.filter (fun w => equal_values w v) (values s)))
    ∧ (forall w, w ∈ values s -> isna w = false ->
         exists v n, (v, n) ∈ counts ∧ equal_values w v = true)
    ∧ sum_list_with snd counts
      = length (List.filter (fun v => negb (isna v)) (values s))
    ∧ (rectangular df -> (sum_list_with snd counts <= len df)%nat)
    ∧ StronglySorted (fun a b => (snd b <= snd a)%nat) counts.
Proof.
  intros Hlab.
  destruct (basic_audit_returns df label_col k) as (r & Hr & _ & _ & _ & _ & _ & _ & Hcounts);
    [lia|].
  pose proof (length_getitem df label_col) as Hlen. rewrite Hlab in Hlen.
  destruct (getitem df label_col) as [|s [|s' rest]] eqn:Eg; try done.
  assert (s ∈ df ∧ name s = label_col) as [Hs Hname].
  { assert (s ∈ getitem df label_col) as Hin by (rewrite Eg; left).
    apply elem_of_list_filter_bool in Hin as [? ?%bool_decide_eq_true]. done. }
  destruct (value_counts_spec (values s)) as (Hnd & Hin & Hall & Hsum & Hsorted).
  exists r, s, (value_counts (values s)). split_and!; try done.
  - intros v n Hvn. destruct (Hin v n Hvn) as [Hv ->].
    apply elem_of_list_filter_bool in Hv as [Hv Hna%negb_true_iff].
    split_and!; try done.
    assert (v ∈ List.filter (fun w => equal_values w v) (values s)) as Hself.
    { apply elem_of_list_filter_bool. split; [done|]. by apply equal_values_key. }
    destruct (List.filter (fun w => equal_values w v) (values s));
      [by apply elem_of_nil in Hself|cbn; lia].
  - intros w Hw Hna. apply Hall. apply elem_of_list_filter_bool.
    split; [done|]. by rewrite Hna.
  - intros Hrect. rewrite Hsum.
    etrans; [apply sublist_length, list_filter_sublist|].
    by rewrite (rectangular_elem df s Hrect Hs).
Qed.

Lemma basic_audit_label_counts_witness :
  exists r counts,
    @basic_audit sample_runtime loose_table (LStr (lit "Label")) 15 = Ok r
    ∧ label_counts r = Some counts
    ∧ counts = [(VInt 1, 2%nat); (VStr (lit "1"), 1%nat)].
Proof.
  destruct (@basic_audit_label_counts sample_runtime loose_table (LStr (lit "Label")) 15)
    as (r & s & counts & Hr & _ & _ & Hc & _); [reflexivity|].
  exists r, counts. split; [exact Hr|]. split; [exact Hc|].
  assert (Some counts = Some [(VInt 1, 2%nat); (VStr (lit "1"), 1%nat)]) as E.
  { rewrite <- Hc. clear -Hr. by injection Hr as <-. }
  by injection E.
Defined.

(** ** Loading, then cleaning *)

Section StripSpace.
Implicit Types (s t pre post : str).

Lemma lstrip_app_space pre t :
  Forall (fun c => isspace c = true) pre -> lstrip (pre ++ t) = lstrip t.
Proof. induction 1 as [|c pre Hc _ IH]; [done|]. cbn [app lstrip]. by rewrite Hc. Qed.

Lemma rstrip_space post : Forall (fun c => isspace c = true) post -> rstrip post = [].
Proof. induction 1 as [|c post Hc _ IH]; [done|]. cbn [rstrip]. by rewrite IH, Hc. Qed.

Lemma rstrip_app_space t post :
  Forall (fun c => isspace c = true) post -> rstrip (t ++ post) = rstrip t.
Proof.
  intros Hpost. induction t as [|c t IH]; [by apply rstrip_space|].
  cbn [app rstrip]. by rewrite IH.
Qed.

Lemma lstrip_decomp s :
  exists pre, s = pre ++ lstrip s ∧ Forall (fun c => isspace c = true) pre.
Proof.
  induction s as [|c s (pre & Hs & Hpre)]; [by exists []|]. cbn [lstrip].
  destruct (isspace c) eqn:Hc.
  - exists (c :: pre). split; [cbn; by f_equal|by constructor].
  - by exists [].
Qed.

Lemma rstrip_decomp s :
  exists post, s = rstrip s ++ post ∧ Forall (fun c => isspace c = true) post.
Proof.
  induction s as [|c s (post & Hs & Hpost)]; [by exists []|]. cbn [rstrip].
  destruct (rstrip s) as [|b r] eqn:E.
  - destruct (isspace c) eqn:Hc.
    + exists (c :: post). cbn in Hs. subst s. split; [done|by constructor].
    + exists post. cbn in *. by subst s.
  - exists post. cbn in *. by rewrite Hs at 1.
Qed.

Lemma strip_app_space pre t post :
  Forall (fun c => isspace c = true) pre ->
  Forall (fun c => isspace c = true) post ->
  strip (pre ++ t ++ post) = strip t.
Proof.
  intros Hpre Hpost. unfold strip. rewrite lstrip_app_space by done.
  induction t as [|c t IH].
  - cbn [app]. destruct (lstrip_decomp post) as (p & Hp & _).
    assert (Forall (fun c => isspace c = true) (lstrip post)) as Hl.
    { rewrite Hp in Hpost. by apply Forall_app in Hpost as [_ ?]. }
    by rewrite rstrip_space.
  - cbn [app lstrip]. destruct (isspace c) eqn:Hc; [exact IH|].
    change (c :: t ++ post) with ((c :: t) ++ post). by apply rstrip_app_space.
Qed.

Lemma filter_space (pre : str) :
  Forall (fun c => isspace c = true) pre ->
  List.filter (fun x : N => negb (x =? BOM)%N) pre = pre.
Proof.
  induction 1 as [|c pre Hc _ IH]; [done|]. cbn [List.filter].
  destruct (N.eqb_spec c BOM) as [->|_]; [by vm_compute in Hc|]. cbn [negb]. by rewrite IH.
Qed.

(** Stripping a name first does not change what cleaning makes of it. *)
Lemma clean_label_strip s : clean_label (LStr (strip s)) = clean_label (LStr s).
Proof.
  unfold clean_label. cbn [py_str]. f_equal.
  destruct (lstrip_decomp s) as (pre & Hs & Hpre).
  destruct (rstrip_decomp (lstrip s)) as (post & Hl & Hpost).
  fold (strip s) in Hl.
  assert (s = pre ++ strip s ++ post) as E by (by rewrite <- Hl).
  remember (strip s) as m eqn:Hm. clear Hm Hl Hs. subst s.
  rewrite !List.filter_app. unfold char in *.
  rewrite (filter_space pre Hpre), (filter_space post Hpost).
  symmetry. by apply strip_app_space.
Qed.
End StripSpace.

(** X17.  Cleaning a table that [load_peek] or [load_full] returned gives
    the names that cleaning would make of the names the reader assigned:
    the stripping done at load time takes nothing away from the cleaning,
    which so removes every U+FEFF and all outer whitespace of the header
    names. *)
Theorem load_then_clean (fs : filesystem) (path : Path) (nrows : option Z)
    (σ : store) (r : ref) (df : DataFrame) :
  match nrows with
  | Some n => load_peek fs path n = Ok df
  | None => load_full fs path = Ok df
  end ->
  σ !! r = Some df ->
  exists df0 r' σ' df',
    read_csv fs path nrows = Ok df0
    ∧ clean_column_names r σ = Returns (Ok r') σ'
    ∧ σ' !! r' = Some df'
    ∧ columns df' = map clean_label (columns df0)
    ∧ rows df' = rows df0.
Proof.
  intros Hload Hr.
  assert (exists df0, read_csv fs path nrows = Ok df0
            ∧ rbind (str_accessor strip (columns df0))
                (fun cols => assign_columns cols df0) = Ok df) as (df0 & Hread & Hstep).
  { destruct nrows as [n|].
    - apply load_peek_inv in Hload as (_ & df0 & ? & ?). eauto.
    - apply load_full_inv in Hload as (_ & df0 & ? & ?). eauto. }
  apply read_csv_frame in Hread as Hframe. destruct Hframe as (hd & rs & ->).
  apply strip_step in Hstep as (Hcols & Hvals & _).
  set (df' := zip_with set_name (map clean_label (columns df)) df).
  assert (length (map clean_label (columns df)) = length df) as Hlen
    by (unfold columns; by rewrite !length_map).
  exists (frame_of hd rs), (fresh (dom σ)), (<[fresh (dom σ) := df']> σ), df'.
  split_and!; [done|by apply clean_column_names_run|apply lookup_insert_eq| |].
  - unfold df'. rewrite set_name_columns by done.
    rewrite Hcols, columns_frame_of, !map_map. apply map_ext. intros h.
    cbn [py_str]. apply clean_label_strip.
  - rewrite (rows_values df' df) by (by apply set_name_data).
    by apply rows_values.
Qed.

Lemma load_then_clean_witness :
  exists df df0 r' σ' df',
    load_full data_fs (data_dir ++ [lit "b.csv"]) = Ok df
    ∧ read_csv data_fs (data_dir ++ [lit "b.csv"]) None = Ok df0
    ∧ clean_column_names 0%nat {[ 0%nat := df ]} = Returns (Ok r') σ'
    ∧ σ' !! r' = Some df'
    ∧ columns df' = map clean_label (columns df0)
    ∧ rows df' = rows df0.
Proof.
  destruct (load_full data_fs (data_dir ++ [lit "b.csv"])) as [df|e] eqn:E;
    [|by vm_compute in E].
  destruct (load_then_clean data_fs (data_dir ++ [lit "b.csv"]) None
              {[ 0%nat := df ]} 0%nat df E (lookup_singleton_eq _ _))
    as (df0 & r' & σ' & df' & H).
  exists df, df0, r', σ', df'. split; [reflexivity|exact H].
Defined.

(** ** Cleaning, then summarising *)

Section Renaming.
Context (f : label -> label).

Lemma zip_rename (df : DataFrame) :
  zip_with set_name (map f (columns df)) df = map (rename f) df.
Proof. induction df as [|c df IH]; [done|]. cbn. by rewrite <- IH. Qed.

Lemma select_dtypes_rename kinds (df : DataFrame) :
  select_dtypes kinds (map (rename f) df) = map (rename f) (select_dtypes kinds df).
Proof.
  unfold select_dtypes. induction df as [|c df IH]; [done|].
  cbn [map List.filter rename set_name dtype_of].
  destruct (bool_decide (dtype_of c ∈ kinds)); cbn [map]; by rewrite IH.
Qed.

Lemma empty_rename (df : DataFrame) : empty (map (rename f) df) = empty df.
Proof. by destruct df. Qed.

Lemma columns_rename (df : DataFrame) : columns (map (rename f) df) = map f (columns df).
Proof. unfold columns. rewrite !map_map. done. Qed.
End Renaming.

Lemma slice_to_map {A B} (g : A -> B) (n : Z) (l : list A) :
  slice_to n (map g l) = map g (slice_to n l).
Proof.
  unfold slice_to. rewrite length_map.
  destruct (0 <=? n); symmetry; apply fmap_take.
Qed.

(** X18.  Cleaning the names leaves a numeric summary as it is but for its
    row labels: [numeric_summary] of the cleaned table has the statistics
    and the values of the summary of the input, and the cleaned names of
    the same numeric columns as row labels. *)
Theorem clean_keeps_summary `{Runtime} (σ : store) (r : ref) (df : DataFrame) (max_cols : Z) :
  σ !! r = Some df ->
  exists r' σ' df',
    clean_column_names r σ = Returns (Ok r') σ'
    ∧ σ' !! r' = Some df'
    ∧ stats (numeric_summary df' max_cols) = stats (numeric_summary df max_cols)
    ∧ body (numeric_summary df' max_cols) = body (numeric_summary df max_cols)
    ∧ index (numeric_summary df' max_cols)
      = map (fun c => LStr (strip (List.filter (fun x => negb (x =? BOM)%N) (py_str c))))
          (index (numeric_summary df max_cols)).
Proof.
  intros Hr.
  exists (fresh (dom σ)),
    (<[fresh (dom σ) := zip_with set_name (map clean_label (columns df)) df]> σ),
    (zip_with set_name (map clean_label (columns df)) df).
  split; [by apply clean_column_names_run|]. split; [apply lookup_insert_eq|].
  rewrite zip_rename. unfold numeric_summary.
  rewrite select_dtypes_rename, empty_rename.
  destruct (empty (select_dtypes [int64; float64] df)); [done|].
  cbn [summary_head describe_T stats body index]. split_and!.
  - done.
  - by rewrite map_map.
  - rewrite columns_rename. unfold pd_head. apply slice_to_map.
Qed.

Lemma clean_keeps_summary_witness :
  exists r' σ' df',
    clean_column_names 0%nat {[ 0%nat := mixed_table ]} = Returns (Ok r') σ'
    ∧ σ' !! r' = Some df'
    ∧ body (@numeric_summary sample_runtime df' 1)
      = body (@numeric_summary sample_runtime mixed_table 1)
    ∧ index (@numeric_summary sample_runtime mixed_table 1) = [LInt 7]
    ∧ index (@numeric_summary sample_runtime df' 1) = [LStr (lit "7")].
Proof.
  destruct (@clean_keeps_summary sample_runtime {[ 0%nat := mixed_table ]} 0%nat
              mixed_table 1 (lookup_singleton_eq _ _))
    as (r' & σ' & df' & Hrun & Hdf' & _ & Hbody & Hidx).
  exists r', σ', df'. split; [exact Hrun|]. split; [exact Hdf'|].
  split; [exact Hbody|]. split; [reflexivity|]. rewrite Hidx. reflexivity.
Defined.

(** ** The unnamed test *)

Lemma startswith_app (u p : str) : startswith u p = true <-> exists t, u = p ++ t.
Proof.
  revert u. induction p as [|a p IH]; intros u.
  - rewrite startswith_nil. split; [eauto|done].
  - destruct u as [|b u]; cbn [startswith].
    + split; [done|]. by intros (t & ?).
    + rewrite andb_true_iff, N.eqb_eq, IH. split.
      * intros [-> (t & ->)]. eauto.
      * intros (t & [= -> ->]). eauto.
Qed.

Lemma lower_app (s t : str) : lower (s ++ t) = lower s ++ lower t.
Proof. apply map_app. Qed.

(** X19.  A column is reported as unnamed exactly when the text of its
    label starts with seven characters that spell "unnamed" in any mix of
    upper and lower case; what follows them does not matter.  So the
    placeholder "Unnamed: n" of the CSV reader is reported for every n. *)
Theorem unnamed_columns_prefix (df : DataFrame) (c : label) :
  (c ∈ unnamed_columns (find_suspicious_columns df) <->
     c ∈ columns df
     ∧ exists s t, py_str c = s ++ t ∧ length s = 7%nat ∧ lower s = lit "unnamed")
  ∧ (forall n : Z, LStr (lit "Unnamed: " ++ of_int n) ∈ columns df ->
       LStr (lit "Unnamed: " ++ of_int n) ∈ unnamed_columns (find_suspicious_columns df)).
Proof.
  assert (forall u, startswith (lower u) (lit "unnamed") = true <->
            exists s t, u = s ++ t ∧ length s = 7%nat ∧ lower s = lit "unnamed") as Hchar.
  { intros u. rewrite startswith_app. split.
    - intros (t & Hu). exists (take 7 u), (drop 7 u). split_and!.
      + by rewrite take_drop.
      + rewrite length_take. apply Nat.min_l.
        rewrite <- (length_map lower_char u). fold (lower u). rewrite Hu.
        rewrite length_app. cbn. lia.
      + transitivity (take 7 (lower u)).
        * apply (fmap_take lower_char).
        * by rewrite Hu.
    - intros (s & t & -> & _ & Hs). exists (lower t). by rewrite lower_app, Hs. }
  split.
  - rewrite elem_of_unnamed_columns. by rewrite Hchar.
  - intros n Hin. apply elem_of_unnamed_columns. split; [done|].
    cbn [py_str]. apply Hchar. exists (lit "Unnamed"), (lit ": " ++ of_int n).
    split_and!; done.
Qed.
